(** * Hardware stress-test harness (c.py): shallow embedding and properties

    The harness starts one thread per worker (CPU, GPU placeholder, cache,
    scheduler, RAM, disk, network) and a diagnosis monitor, all polling one
    shared [threading.Event] ([stop_event]); [cleanup], registered with
    [atexit], is the shutdown routine.

    Modelling conventions.
    - Python [int] is [Z]; Python [float] is the binary64 [float] of the
      kernel, so the arithmetic of the monitor is the one the program runs.
    - A thread is a function on the shared [world]; what the thread cannot
      decide by itself (another thread setting the event, an I/O call that
      raises, the counters psutil returns) comes from a script, one entry
      per loop iteration.  A script that runs out leaves the worker
      [StillRunning].
    - Every console line and every effect on the pool, the clock and the
      disk file is recorded, in order, in the [trace] of the world. *)

From Stdlib Require Import ZArith List String Ascii Floats Lia.
From stdpp Require Import base gmap list strings pretty.

Open Scope Z_scope.

(** ** Configuration (c.py, lines 24-34) *)

Definition DISK_FILE : string := "D:\temp_stress_file.bin".
Definition NETWORK_URL : string := "https://speed.hetzner.de/100MB.bin".
Definition RAM_CHUNK_SIZE : Z := 500 * 4096 * 4096.
Definition MONITOR_INTERVAL : float := 5.0%float.

(** ** Python values shared by the workers *)

(** [float(z)]: round to nearest, ties to even.  (Python raises
    OverflowError from 2^1024 on, where this gives infinity; no counter of
    the program comes near.) *)
Definition float_of_int (z : Z) : float :=
  SF2Prim (binary_normalize prec emax z 0 false).

Definition nl : string := String (ascii_of_nat 10) EmptyString.

(** The exceptions the handlers of the program tell apart:
    [except FileNotFoundError], [except MemoryError], and everything else
    under [except Exception]. *)
Inductive exn :=
  | FileNotFoundError (msg : string)
  | MemoryError (msg : string)
  | IndexError (msg : string)
  | ZeroDivisionError (msg : string)
  | ValueError (msg : string)
  | OtherException (msg : string).

Definition is_file_not_found (e : exn) : bool :=
  match e with FileNotFoundError _ => true | _ => false end.

Definition exn_str (e : exn) : string :=
  match e with
  | FileNotFoundError m | MemoryError m | IndexError m
  | ZeroDivisionError m | ValueError m | OtherException m => m
  end.

(** How a worker function stands when its script is used up. *)
Inductive status := Returned | StillRunning.

(** How a [while not stop_event.is_set()] loop inside a [try] ends. *)
Inductive loop_exit :=
  | Cancelled
  | Raised (e : exn)
  | Looping.

(** ** The console, the pool and the world *)

(** The figures of one diagnosis line, before the [.1f] formatting. *)
Record report := Report {
  r_cpu_load : float;
  r_mem_percent : float;
  r_mem_used_gb : float;
  r_disk_read : float;
  r_disk_write : float;
  r_net_sent : float;
  r_net_recv : float;
  r_core_temp : option float
}.

Inductive line :=
  | Text (s : string)
  | Diagnosis (r : report).

Inductive event :=
  | EPrint (locked : bool) (l : line)
  | EPoolShutdown
  | ESleep (seconds : float)
  | EFileCreate (size : Z)
  | EFileWrite (count : Z)
  | EFileRead (count : Z)
  | EFileRemove.

Record pool := Pool {
  max_workers : Z;
  submitted : list string;
  shut_down : bool
}.

Record world := World {
  stop_event : bool;
  executor : option pool;
  disk_file : option Z;
  trace : list event
}.

Definition emit (e : event) (w : world) : world :=
  World (stop_event w) (executor w) (disk_file w) (trace w ++ [e]).

(** [print(...)] outside the lock, and inside [with lock:]. *)
Definition print (s : string) (w : world) : world :=
  emit (EPrint false (Text s)) w.

Definition print_locked (l : line) (w : world) : world :=
  emit (EPrint true l) w.

Definition sleep (seconds : float) (w : world) : world :=
  emit (ESleep seconds) w.

Definition set_file (f : option Z) (w : world) : world :=
  World (stop_event w) (executor w) f (trace w).

Definition set_executor (p : option pool) (w : world) : world :=
  World (stop_event w) p (disk_file w) (trace w).

(** ** CancellationToken: the [threading.Event] [stop_event] (line 31)

    The program calls only [set()] and [is_set()] on it. *)
Module Token.

Inductive op := OpSet | OpIsSet.

Definition set (flag : bool) : bool := true.
Definition is_set (flag : bool) : bool := flag.

(** One call by one thread: the new flag and what the caller sees. *)
Definition step (flag : bool) (o : op) : bool * option bool :=
  match o with
  | OpSet => (set flag, None)
  | OpIsSet => (flag, Some (is_set flag))
  end.

(** An interleaving of calls, each tagged with the calling thread. *)
Fixpoint run (flag : bool) (calls : list (nat * op))
  : bool * list (nat * bool) :=
  match calls with
  | [] => (flag, [])
  | (tid, o) :: rest =>
      let '(flag', seen) := step flag o in
      let '(final, obs) := run flag' rest in
      (final, match seen with
              | Some b => (tid, b) :: obs
              | None => obs
              end)
  end.

End Token.

Definition set_stop (w : world) : world :=
  World (Token.set (stop_event w)) (executor w) (disk_file w) (trace w).

(** Another thread sets the event before this thread polls it. *)
Definition observe (cancel : bool) (w : world) : world :=
  if cancel then set_stop w else w.

(** ** Counting effects in a trace *)

Definition is_pool_shutdown (e : event) : bool :=
  match e with EPoolShutdown => true | _ => false end.
Definition is_sleep (e : event) : bool :=
  match e with ESleep _ => true | _ => false end.
Definition is_file_remove (e : event) : bool :=
  match e with EFileRemove => true | _ => false end.
Definition is_file_create (e : event) : bool :=
  match e with EFileCreate _ => true | _ => false end.
Definition is_unlocked_print (e : event) : bool :=
  match e with EPrint false _ => true | _ => false end.
Definition is_locked_print (e : event) : bool :=
  match e with EPrint true _ => true | _ => false end.
Definition is_print (e : event) : bool :=
  match e with EPrint _ _ => true | _ => false end.


(** The figures of the diagnosis lines of a trace, in order. *)
Definition reports (t : list event) : list report :=
  omap (fun e => match e with EPrint _ (Diagnosis r) => Some r | _ => None end) t.

(** The durations slept in a trace, in order. *)
Definition sleeps (t : list event) : list float :=
  omap (fun e => match e with ESleep s => Some s | _ => None end) t.

Arguments reports : simpl never.
Arguments sleeps : simpl never.

Definition count (p : event -> bool) (t : list event) : nat :=
  length (filter (fun e => p e = true) t).
Arguments count : simpl never.

(** The number of lines written under the lock so far. *)
Definition locked (w : world) : nat := count is_locked_print (trace w).

(** ** Exceptions as results *)

Inductive result (A : Type) :=
  | Ok (a : A)
  | Raise (e : exn).
Arguments Ok {A} a.
Arguments Raise {A} e.

#[global] Instance result_ret : MRet result := @Ok.

#[global] Instance result_bind : MBind result := fun A B k r =>
  match r with
  | Ok a => k a
  | Raise e => Raise e
  end.

(** ** Compute worker, [cpu_stress] (lines 38-50) *)
Module Cpu.

Record iter := Iter {
  cancel : bool;          (* the event is set before this poll *)
  fault : option exn      (* np.dot raises *)
}.

Fixpoint loop (script : list iter) (w : world) : loop_exit * world :=
  match script with
  | [] => (Looping, w)
  | it :: rest =>
      let w := observe (cancel it) w in
      if Token.is_set (stop_event w) then (Cancelled, w)
      else match fault it with
           | Some e => (Raised e, w)
           | None => loop rest w
           end
  end.

Definition cpu_stress (thread_id : Z) (script : list iter) (w : world)
  : status * world :=
  let w := print ("[CPU Thread " +:+ pretty thread_id
                  +:+ "]: Starting matrix multiplication loop...") w in
  match loop script w with
  | (Looping, w) => (StillRunning, w)
  | (Cancelled, w) => (Returned, w)
  | (Raised e, w) =>
      (Returned,
       if Token.is_set (stop_event w) then w
       else print ("[CPU Thread " +:+ pretty thread_id +:+ " ERROR]: "
                   +:+ exn_str e) w)
  end.

End Cpu.

(** ** Cache worker, [cache_stress] (lines 78-107) *)
Module Cache.

Definition array_size : Z := 256000000.
Definition stride : Z := 4096.
(** The literal [1.0000000001], that is the binary64 closest to it. *)
Definition factor : float := 0x1.000000006df38p+0%float.

(** A one-dimensional float64 array: its length and the cells that
    differ from the 0.0 [np.zeros] leaves. *)
Record ndarray := NdArray {
  size : Z;
  cells : gmap Z float
}.

Definition zeros (n : Z) : ndarray := NdArray n ∅.

(** numpy indexing: [-size <= i < size], negative indices count from
    the end, anything else is an IndexError. *)
Definition locate (a : ndarray) (i : Z) : result Z :=
  if (0 <=? i) && (i <? size a) then Ok i
  else if (- size a <=? i) && (i <? 0) then Ok (i + size a)
  else Raise (IndexError ("index " +:+ pretty i
                          +:+ " is out of bounds for axis 0 with size "
                          +:+ pretty (size a))).

Definition getitem (a : ndarray) (i : Z) : result float :=
  k ← locate a i;
  Ok (default 0%float (cells a !! k)).

Definition setitem (a : ndarray) (i : Z) (v : float) : result ndarray :=
  k ← locate a i;
  Ok (NdArray (size a) (<[k := v]> (cells a))).

(** The array and, in order, the indices read-modify-written so far. *)
Record pass_state := PassState {
  data : ndarray;
  touched : list Z
}.

(** [data[index] = data[index] * 1.0000000001 + 1.0] *)
Definition touch (index : Z) (st : pass_state) : result pass_state :=
  x ← getitem (data st) index;
  d ← setitem (data st) index (x * factor + 1.0)%float;
  Ok (PassState d (touched st ++ [index])).

Definition floordiv (a b : Z) : result Z :=
  if b =? 0 then Raise (ZeroDivisionError "integer division or modulo by zero")
  else Ok (a / b).

Definition range (n : Z) : list Z := seqZ 0 n.

(** The body of [for i in range(...)]; on an exception the state is the
    one reached so far. *)
Fixpoint for_each (stride : Z) (indices : list Z) (st : pass_state)
  : pass_state * option exn :=
  match indices with
  | [] => (st, None)
  | i :: rest =>
      let index := i * stride in
      match touch index st with
      | Raise e => (st, Some e)
      | Ok st' => for_each stride rest st'
      end
  end.

(** One full pass: [for i in range(array_size // stride): ...]. *)
Definition pass (array_size stride : Z) (st : pass_state)
  : pass_state * option exn :=
  match floordiv array_size stride with
  | Raise e => (st, Some e)
  | Ok n => for_each stride (range n) st
  end.

Fixpoint loop (array_size stride : Z) (script : list bool)
    (st : pass_state) (w : world) : loop_exit * pass_state * world :=
  match script with
  | [] => (Looping, st, w)
  | cancel :: rest =>
      let w := observe cancel w in
      if Token.is_set (stop_event w) then (Cancelled, st, w)
      else match pass array_size stride st with
           | (st', Some e) => (Raised e, st', w)
           | (st', None) => loop array_size stride rest st' w
           end
  end.

(** [alloc_fault]: [np.zeros] raising (MemoryError); [script]: whether
    the event is set before each poll. *)
Definition cache_stress (alloc_fault : option exn) (script : list bool)
    (w : world) : status * option pass_state * world :=
  let w := print "[CACHE Thread]: Starting L1/L2/L3 cache stress (large stride access)..." w in
  let handler (e : exn) (w : world) : world :=
    if Token.is_set (stop_event w) then w
    else print ("[CACHE Thread ERROR]: Cache stress operation failed: "
                +:+ exn_str e) w in
  match alloc_fault with
  | Some e => (Returned, None, handler e w)
  | None =>
      match loop array_size stride script (PassState (zeros array_size) []) w with
      | (Looping, st, w) => (StillRunning, Some st, w)
      | (Cancelled, st, w) => (Returned, Some st, w)
      | (Raised e, st, w) => (Returned, Some st, handler e w)
      end
  end.

End Cache.

(** ** Memory worker and the MemoryChunkRing, [ram_stress] (lines 124-156)

    [memory_chunks] is a list of references to list objects: a chunk is
    appended and then reversed in place through the local name [chunk], so
    the heap of chunks and the list of references are kept apart. *)
Module Ram.

Definition chunk := list Z.

Record state := State {
  heap : gmap nat chunk;        (* the live chunk objects *)
  next_ref : nat;               (* the reference the next allocation gets *)
  memory_chunks : list nat      (* the global list, oldest first *)
}.

Definition init (next : nat) : state := State ∅ next [].

(** [[i for i in range(n)]] *)
Definition new_chunk (n : Z) : chunk := seqZ 0 n.

(** [memory_chunks.pop(0)]; the popped chunk has no other reference. *)
Definition pop0 (st : state) : state :=
  match memory_chunks st with
  | [] => st
  | oldest :: rest => State (delete oldest (heap st)) (next_ref st) rest
  end.

(** Steps 1 to 3 of one iteration, for a chunk of [n] elements; the
    iteration then sleeps 0.1 s, written below as the binary64 it is. *)
Definition insert (n : Z) (st : state) : state :=
  let r := next_ref st in
  let st := State (<[r := new_chunk n]> (heap st)) (S r) (memory_chunks st ++ [r]) in
  let st := if (1 <? length (memory_chunks st))%nat
            then State (alter reverse r (heap st)) (next_ref st) (memory_chunks st)
            else st in
  if (4 <? length (memory_chunks st))%nat then pop0 st else st.

Record iter := Iter {
  cancel : bool;            (* the event is set before this poll *)
  alloc_fault : option exn  (* building the chunk raises *)
}.

(** An iteration in which nothing interferes. *)
Definition clean (it : iter) : bool :=
  negb (cancel it) && bool_decide (alloc_fault it = None).

(** After [c] insertions from [init next]: the ring holds the last four
    references handed out, in order, and the heap holds their chunks and
    no others. *)
Definition ring_at (next c : nat) (st : state) : Prop :=
  next_ref st = (next + c)%nat
  /\ memory_chunks st = drop (c - 4) (seq next c)
  /\ dom (heap st) = list_to_set (memory_chunks st).

Fixpoint loop (n : Z) (script : list iter) (st : state) (w : world)
  : loop_exit * state * world :=
  match script with
  | [] => (Looping, st, w)
  | it :: rest =>
      let w := observe (cancel it) w in
      if Token.is_set (stop_event w) then (Cancelled, st, w)
      else match alloc_fault it with
           | Some e => (Raised e, st, w)
           | None => loop n rest (insert n st) (sleep 0x1.999999999999ap-4 w)
           end
  end.

(** The worker with chunks of [n] elements.  [None] for the ring: the
    [finally] clause has deleted [memory_chunks]. *)
Definition ram_stress_with (n : Z) (next : nat) (script : list iter) (w : world)
  : status * option state * world :=
  let w := print "[RAM Thread]: Starting memory allocation and manipulation..." w in
  match loop n script (init next) w with
  | (Looping, st, w) => (StillRunning, Some st, w)
  | (Cancelled, st, w) => (Returned, None, w)
  | (Raised (MemoryError _), st, w) =>
      (Returned, None,
       print "[RAM Thread FATAL ERROR]: Memory allocation failed. System is out of memory." w)
  | (Raised e, st, w) =>
      (Returned, None,
       if Token.is_set (stop_event w) then w
       else print ("[RAM Thread ERROR]: " +:+ exn_str e) w)
  end.

Definition ram_stress : nat -> list iter -> world -> status * option state * world :=
  ram_stress_with (RAM_CHUNK_SIZE / 8).

End Ram.

(** ** The backing file (the one file at [DISK_FILE]) *)

(** What creating the file meets: success, or an exception that leaves
    the path as [remains] (absent when [open] failed, a shorter file when
    the write failed). *)
Inductive create_env :=
  | CreateOk
  | CreateFails (e : exn) (remains : option Z).

(** A write that raises after [written] bytes went out. *)
Record write_fault := WriteFault {
  wf_exn : exn;
  wf_written : Z
}.

Definition no_such_file : exn :=
  FileNotFoundError ("[Errno 2] No such file or directory: '" +:+ DISK_FILE +:+ "'").

(** [with open(DISK_FILE, 'r+b') as f: f.seek(0); f.write(buf)] *)
Definition write_in_place (fault : option write_fault) (count : Z) (w : world)
  : world * option exn :=
  match disk_file w with
  | None => (w, Some no_such_file)
  | Some n =>
      match fault with
      | Some f => (set_file (Some (Z.max n (wf_written f))) w, Some (wf_exn f))
      | None => (emit (EFileWrite count) (set_file (Some (Z.max n count)) w), None)
      end
  end.

(** [with open(DISK_FILE, 'rb') as f: f.seek(0); f.read(count)] *)
Definition read_back (fault : option exn) (count : Z) (w : world)
  : world * option exn :=
  match disk_file w with
  | None => (w, Some no_such_file)
  | Some n =>
      match fault with
      | Some e => (w, Some e)
      | None => (emit (EFileRead (Z.min n count)) w, None)
      end
  end.

(** [with open(DISK_FILE, 'wb') as f: f.write(os.urandom(count))] *)
Definition create_file (cr : create_env) (count : Z) (w : world)
  : world * option exn :=
  match cr with
  | CreateOk => (emit (EFileCreate count) (set_file (Some count) w), None)
  | CreateFails e remains => (set_file remains w, Some e)
  end.

(** ** Disk worker, [disk_stress] (lines 158-192) *)
Module Disk.

Definition write_buffer_len : Z := 4096 * 4096.
Definition initial_file_len : Z := 10 * 4096 * 4096.

Record iter := Iter {
  cancel : bool;                     (* the event is set before this poll *)
  write_err : option write_fault;    (* the write raises *)
  read_err : option exn              (* the read raises *)
}.

(** The exception an iteration meets on a file that exists, if any. *)
Definition raises (it : iter) : option exn :=
  match write_err it with
  | Some f => Some (wf_exn f)
  | None => read_err it
  end.

(** An iteration in which nothing interferes. *)
Definition clean (it : iter) : bool :=
  negb (cancel it) && bool_decide (raises it = None).

Definition quiet : iter := Iter false None None.

Fixpoint loop (script : list iter) (w : world) : loop_exit * world :=
  match script with
  | [] => (Looping, w)
  | it :: rest =>
      let w := observe (cancel it) w in
      if Token.is_set (stop_event w) then (Cancelled, w)
      else match write_in_place (write_err it) write_buffer_len w with
           | (w, Some e) => (Raised e, w)
           | (w, None) =>
               match read_back (read_err it) write_buffer_len w with
               | (w, Some e) => (Raised e, w)
               | (w, None) => loop rest w
               end
           end
  end.



(** What one undisturbed iteration does to the world. *)
Definition clean_step (w : world) : world :=
  (read_back None write_buffer_len (write_in_place None write_buffer_len w).1).1.

Definition start_line : string :=
  "[DISK Thread]: Starting read/write cycle on: " +:+ DISK_FILE.

Definition error_line (e : exn) : string :=
  "[DISK Thread ERROR]: Disk I/O operation failed: " +:+ exn_str e.

Definition fatal_line (e : exn) : string :=
  "[DISK Thread FATAL ERROR]: Could not create file at "
  +:+ DISK_FILE +:+ ". Check disk permissions/path. " +:+ exn_str e.

Definition disk_stress (cr : create_env) (script : list iter) (w : world)
  : status * world :=
  let w := print start_line w in
  match loop script w with
  | (Looping, w) => (StillRunning, w)
  | (Cancelled, w) => (Returned, w)
  | (Raised (FileNotFoundError _), w) =>
      match create_file cr initial_file_len w with
      | (w, None) =>
          (Returned, print ("[DISK Thread INFO]: Created initial file at " +:+ DISK_FILE) w)
      | (w, Some e) =>
          (Returned,
           set_stop (print ("[DISK Thread FATAL ERROR]: Could not create file at "
                            +:+ DISK_FILE +:+ ". Check disk permissions/path. "
                            +:+ exn_str e) w))
      end
  | (Raised e, w) =>
      (Returned,
       if Token.is_set (stop_event w) then w
       else print (error_line e) w)
  end.

End Disk.

(** ** DiagnosisMonitor, [diagnosis_monitor] (lines 237-294) *)
Module Monitor.

(** What psutil returns. *)
Record snetio := NetIO { bytes_sent : Z; bytes_recv : Z }.
Record sdiskio := DiskIO { read_bytes : Z; write_bytes : Z }.
Record svmem := VMem { percent : float; used : Z }.

Record iter := Iter {
  cancel : bool;                 (* the event is set before this poll *)
  fault : option exn;            (* a psutil call raises *)
  after_sleep : bool;            (* ... and it is one made after the sleep
                                    (lines 254-259 and 278), not before it
                                    (lines 247-248) *)
  net_io_start : snetio;
  disk_io_start : sdiskio;
  net_io_end : snetio;
  disk_io_end : sdiskio;
  cpu_load : float;
  mem : svmem;
  temps : gmap string (list float) (* sensor group -> the [current] readings *)
}.

(** [(end - start) / MONITOR_INTERVAL / (4096 * 4096)] *)
Definition rate (start finish : Z) : float :=
  (float_of_int (finish - start) / MONITOR_INTERVAL / float_of_int (4096 * 4096))%float.

(** The rate as the spec words it, [(end - start) / interval / 2^20], to
    compare with [rate]. *)
Definition rate_as_specified (start finish : Z) : float :=
  (float_of_int (finish - start) / MONITOR_INTERVAL / float_of_int (2 ^ 20))%float.

(** [max(...)] of Python: the first of the largest, ValueError when empty. *)
Definition py_max (xs : list float) : result float :=
  match xs with
  | [] => Raise (ValueError "max() arg is an empty sequence")
  | x :: rest => Ok (fold_left (fun m y => if (m <? y)%float then y else m) rest x)
  end.

Definition core_temp (temp_available : bool) (t : gmap string (list float))
  : result (option float) :=
  if temp_available then
    match t !! "coretemp" with
    | Some readings => m ← py_max readings; Ok (Some m)
    | None =>
        match t !! "cpu_thermal" with
        | Some readings => m ← py_max readings; Ok (Some m)
        | None => Ok None
        end
    end
  else Ok None.

(** The figures of the line printed at the end of one iteration. *)
Definition make_report (it : iter) (ct : option float) : report :=
  let net_sent := rate (bytes_sent (net_io_start it)) (bytes_sent (net_io_end it)) in
  let net_recv := rate (bytes_recv (net_io_start it)) (bytes_recv (net_io_end it)) in
  let disk_read := rate (read_bytes (disk_io_start it)) (read_bytes (disk_io_end it)) in
  let disk_write := rate (write_bytes (disk_io_start it)) (write_bytes (disk_io_end it)) in
  Report (cpu_load it) (percent (mem it))
         (float_of_int (used (mem it)) / float_of_int (4096 ^ 3))%float
         disk_read disk_write net_sent net_recv ct.

(** An interval in which nothing interferes: nobody sets the event, psutil
    answers, and the sensor group that is read, if any, has a reading. *)
Definition healthy (temp_available : bool) (it : iter) : bool :=
  negb (cancel it) && bool_decide (fault it = None)
  && match core_temp temp_available (temps it) with Ok _ => true | Raise _ => false end.

(** The temperature an interval reports, if any. *)
Definition reported_temp (temp_available : bool) (it : iter) : option float :=
  match core_temp temp_available (temps it) with Ok ct => ct | Raise _ => None end.

Definition iteration (temp_available : bool) (it : iter) (w : world)
  : world * option exn :=
  match fault it with
  | Some e =>
      if after_sleep it then (sleep MONITOR_INTERVAL w, Some e) else (w, Some e)
  | None =>
      let w := sleep MONITOR_INTERVAL w in
      match core_temp temp_available (temps it) with
      | Raise e => (w, Some e)
      | Ok ct => (print_locked (Diagnosis (make_report it ct)) w, None)
      end
  end.

Fixpoint loop (temp_available : bool) (script : list iter) (w : world)
  : loop_exit * world :=
  match script with
  | [] => (Looping, w)
  | it :: rest =>
      let w := observe (cancel it) w in
      if Token.is_set (stop_event w) then (Cancelled, w)
      else match iteration temp_available it w with
           | (w, Some e) => (Raised e, w)
           | (w, None) => loop temp_available rest w
           end
  end.

Definition diagnosis_monitor (temp_available : bool) (script : list iter)
    (w : world) : status * world :=
  let w := print (nl +:+ "[DIAGNOSIS Thread]: Starting system health monitor...") w in
  match loop temp_available script w with
  | (Looping, w) => (StillRunning, w)
  | (Cancelled, w) => (Returned, w)
  | (Raised e, w) =>
      (Returned,
       if Token.is_set (stop_event w) then w
       else print ("[DIAGNOSIS Thread ERROR]: Monitoring failed: " +:+ exn_str e) w)
  end.

End Monitor.

(** ** Orchestrator and Shutdown, [cleanup] and [main] (lines 298-380) *)
Module Orchestrator.

(** [executor.shutdown(wait=False, cancel_futures=True)] *)
Definition shutdown (w : world) : world :=
  match executor w with
  | Some p => emit EPoolShutdown
                (set_executor (Some (Pool (max_workers p) (submitted p) true)) w)
  | None => w
  end.

(** [remove_fault]: [os.remove] raises. *)
Definition cleanup (remove_fault : option exn) (w : world) : world :=
  if Token.is_set (stop_event w) then w
  else
    let w := print (nl +:+ "[INFO]: Keyboard interrupt received. Shutting down threads...") w in
    let w := set_stop w in
    let w := match executor w with
             | Some _ => shutdown (print "[INFO]: Executor shutdown initiated." w)
             | None => w
             end in
    let w := sleep 2 w in
    let w := match disk_file w with
             | Some _ =>
                 match remove_fault with
                 | None =>
                     print ("[INFO]: Successfully deleted temporary file " +:+ DISK_FILE)
                           (emit EFileRemove (set_file None w))
                 | Some e =>
                     print ("[WARNING]: Could not delete temporary file "
                            +:+ DISK_FILE +:+ ": " +:+ exn_str e) w
                 end
             | None => w
             end in
    print "[INFO]: Stress test complete." w.

(** [cleanup] called once per entry of [faults], one call after the other. *)
Definition cleanups (faults : list (option exn)) (w : world) : world :=
  fold_left (fun w f => cleanup f w) faults w.

Definition worker_names (num_cpu_threads : Z) : list string :=
  ["ram_stress"; "disk_stress"; "network_stress"; "gpu_stress";
   "cache_stress"; "io_bound_stress"; "diagnosis_monitor"]
  ++ ((fun i => "cpu_stress(" +:+ pretty i +:+ ")") <$> seqZ 0 num_cpu_threads).

Definition banner : string := "==================================================".

(** [main] up to its waiting loop.  [cpu_count]: what psutil detects. *)
Definition start (cpu_count : option Z) (cr : create_env) (w : world) : world :=
  let num_cpu_threads := default 4 cpu_count in
  let w := print ("[" +:+ pretty num_cpu_threads +:+ " CPU Threads initiated]") w in
  let w := match disk_file w with
           | Some _ => w
           | None =>
               match create_file cr (10 * 4096 * 4096) w with
               | (w, None) => w
               | (w, Some e) =>
                   print ("[ERROR]: Could not pre-create disk file. Disk stress test may fail: "
                          +:+ exn_str e) w
               end
           end in
  let w := set_executor
             (Some (Pool (num_cpu_threads + 7) (worker_names num_cpu_threads) false)) w in
  let w := print (nl +:+ banner) w in
  let w := print "ULTIMATE HARDWARE STRESS TEST RUNNING..." w in
  let w := print ("Targeting: CPU (" +:+ pretty num_cpu_threads
                  +:+ " threads), GPU (CPU Placeholder), RAM, CACHE, DISK ("
                  +:+ DISK_FILE +:+ "), NIC/Wi-Fi, I/O Bound (Chipset/VRM)") w in
  let w := print "Press Ctrl+C to stop the test and clean up." w in
  print banner w.

(** One turn of the main thread, in its waiting loop and then at the exit
    of the interpreter: a second passes and nothing happens, or Ctrl+C
    arrives, or a worker sets the event meanwhile. *)
Inductive tick :=
  | Quiet
  | KeyboardInterrupt
  | WorkerSetsEvent.

(** [while not stop_event.is_set(): time.sleep(1)] under
    [except KeyboardInterrupt: pass]. *)
Fixpoint wait (ticks : list tick) (w : world) : status * world :=
  if Token.is_set (stop_event w) then (Returned, w)
  else match ticks with
       | [] => (StillRunning, w)
       | Quiet :: rest => wait rest (sleep 1 w)
       | KeyboardInterrupt :: rest => (Returned, w)
       | WorkerSetsEvent :: rest => wait rest (sleep 1 (set_stop w))
       end.

(** The turns of the script that are left when the waiting loop returns. *)
Fixpoint left_over (ticks : list tick) (w : world) : list tick :=
  if Token.is_set (stop_event w) then ticks
  else match ticks with
       | [] => []
       | Quiet :: rest => left_over rest (sleep 1 w)
       | KeyboardInterrupt :: rest => rest
       | WorkerSetsEvent :: rest => left_over rest (sleep 1 (set_stop w))
       end.

(** The end of the interpreter.  Before any [atexit] handler runs, the
    threads of the pool are joined (concurrent.futures registers the join
    with threading; so it is from Python 3.9 on, which [cancel_futures]
    requires).  The workers end only once the event is set; a Ctrl+C
    interrupts the join, and the exit goes on to the handlers. *)
Fixpoint join_pool (ticks : list tick) (w : world) : status * world :=
  match executor w with
  | None => (Returned, w)
  | Some _ =>
      if Token.is_set (stop_event w) then (Returned, w)
      else match ticks with
           | [] => (StillRunning, w)
           | Quiet :: rest => join_pool rest w
           | KeyboardInterrupt :: rest => (Returned, w)
           | WorkerSetsEvent :: rest => join_pool rest (set_stop w)
           end
  end.

(** The main thread from the waiting loop to the end of the process:
    when [main] returns the interpreter joins the pool and then runs the
    [atexit] handler, [cleanup]. *)
Definition wait_and_exit (ticks : list tick) (remove_fault : option exn)
    (w : world) : status * world :=
  match wait ticks w with
  | (Returned, w1) =>
      match join_pool (left_over ticks w) w1 with
      | (Returned, w2) => (Returned, cleanup remove_fault w2)
      | (StillRunning, w2) => (StillRunning, w2)
      end
  | (StillRunning, w1) => (StillRunning, w1)
  end.

Definition main (cpu_count : option Z) (cr : create_env) (ticks : list tick)
    (remove_fault : option exn) (w : world) : status * world :=
  wait_and_exit ticks remove_fault (start cpu_count cr w).

End Orchestrator.

(** ** GPU placeholder worker, [gpu_stress] (lines 52-76) *)
Module Gpu.

Definition matrix_size : Z := 4096.

(** The 0.05 of [np.random.rand() < 0.05], as the binary64 it is. *)
Definition refresh_threshold : float := 0x1.999999999999ap-5%float.

Record iter := Iter {
  cancel : bool;          (* the event is set before this poll *)
  fault : option exn;     (* cp.dot or the re-creation raises *)
  draw : float            (* what np.random.rand() returns *)
}.

(** The matrices are random; what the loop decides is when the pair is
    made anew, so the state is the number of pairs created so far. *)
Fixpoint loop (script : list iter) (pairs : nat) (w : world)
  : loop_exit * nat * world :=
  match script with
  | [] => (Looping, pairs, w)
  | it :: rest =>
      let w := observe (cancel it) w in
      if Token.is_set (stop_event w) then (Cancelled, pairs, w)
      else match fault it with
           | Some e => (Raised e, pairs, w)
           | None =>
               loop rest
                    (if (draw it <? refresh_threshold)%float then S pairs else pairs) w
           end
  end.

Definition gpu_stress (script : list iter) (w : world) : status * nat * world :=
  let w := print "[GPU Thread]: Starting CPU Placeholder load for integrated graphics." w in
  match loop script 1 w with
  | (Looping, pairs, w) => (StillRunning, pairs, w)
  | (Cancelled, pairs, w) => (Returned, pairs, w)
  | (Raised e, pairs, w) =>
      (Returned, pairs,
       if Token.is_set (stop_event w) then w
       else print ("[GPU Thread ERROR]: Failed during computation. Error: "
                   +:+ exn_str e) w)
  end.

End Gpu.

(** ** Scheduler worker, [io_bound_stress] (lines 109-122) *)
Module IoBound.

(** The 0.00001 of [time.sleep(0.00001)], as the binary64 it is. *)
Definition pause : float := 0x1.4f8b588e368f1p-17%float.

Record iter := Iter {
  cancel : bool;          (* the event is set before this poll *)
  fault : option exn      (* time.sleep raises *)
}.

Fixpoint loop (script : list iter) (w : world) : loop_exit * world :=
  match script with
  | [] => (Looping, w)
  | it :: rest =>
      let w := observe (cancel it) w in
      if Token.is_set (stop_event w) then (Cancelled, w)
      else match fault it with
           | Some e => (Raised e, w)
           | None => loop rest (sleep pause w)
           end
  end.

Definition io_bound_stress (script : list iter) (w : world) : status * world :=
  let w := print "[I/O Bound Thread]: Starting high context-switching load..." w in
  match loop script w with
  | (Looping, w) => (StillRunning, w)
  | (Cancelled, w) => (Returned, w)
  | (Raised e, w) =>
      (Returned,
       if Token.is_set (stop_event w) then w
       else print ("[I/O Bound Thread ERROR]: " +:+ exn_str e) w)
  end.

End IoBound.

(** ** Network worker, [network_stress] (lines 194-235) *)
Module Network.

(** The exceptions the two handlers of the inner [try] tell apart, and the
    ones that pass through to the outer [except Exception]. *)
Inductive net_exn :=
  | SSLError (msg : string)
  | RequestException (msg : string)
  | Unexpected (e : exn).

(** What one [session.get] meets: the call raises, or a response comes
    with its status line, its content-length header if any, one entry per
    chunk received (is the event set when the loop checks it) and the
    exception that ends the stream, if one does. *)
Inductive get_outcome :=
  | GetRaises (e : net_exn)
  | Response (status_code : Z) (reason : string) (content_length : option string)
             (chunks : list bool) (stream_end : option net_exn).

Record iter := Iter {
  cancel : bool;          (* the event is set before this poll *)
  outcome : get_outcome
}.

(** [r.raise_for_status()]: an HTTPError, which is a RequestException,
    for the 4xx and 5xx codes. *)
Definition raise_for_status (status_code : Z) (reason : string) : option net_exn :=
  if (400 <=? status_code) && (status_code <? 500)
  then Some (RequestException (pretty status_code +:+ " Client Error: " +:+ reason
                               +:+ " for url: " +:+ NETWORK_URL))
  else if (500 <=? status_code) && (status_code <? 600)
  then Some (RequestException (pretty status_code +:+ " Server Error: " +:+ reason
                               +:+ " for url: " +:+ NETWORK_URL))
  else None.

(** [n / (4096 * 4096)] on integers: the quotient n / 2^24 rounded once,
    OverflowError when it is too large for a float. *)
Definition size_mb (n : Z) : result float :=
  let q := SF2Prim (binary_normalize prec emax n (-24) false) in
  if is_infinity q
  then Raise (OtherException "integer division result too large for a float")
  else Ok q.

(** [for chunk in r.iter_content(...): if stop_event.is_set(): break];
    the boolean tells whether the loop was left by [break]. *)
Fixpoint stream (chunks : list bool) (w : world) : world * bool :=
  match chunks with
  | [] => (w, false)
  | c :: rest =>
      let w := observe c w in
      if Token.is_set (stop_event w) then (w, true) else stream rest w
  end.

(** An exception the inner handlers catch. *)
Definition retried (e : net_exn) : bool :=
  match e with
  | SSLError _ | RequestException _ => true
  | Unexpected _ => false
  end.

Section Collaborators.

(** Python's [int(str)] and the [.1f] format, taken as given. *)
Variable py_int : string -> result Z.
Variable format_1f : float -> string.

Definition established (status_code : Z) : string :=
  "[NETWORK/Wi-Fi Thread INFO]: Connection established (Status "
  +:+ pretty status_code +:+ "). ".

Definition info_line (status_code : Z) (content_length : option string)
  : result string :=
  match content_length with
  | None | Some EmptyString => Ok (established status_code +:+ "Size unknown.")
  | Some s =>
      n ← py_int s;
      q ← size_mb n;
      Ok (established status_code +:+ "Expected size: " +:+ format_1f q +:+ "MB")
  end.

(** The body of the inner [try], up to and including [time.sleep(1)]. *)
Definition attempt (o : get_outcome) (w : world) : world * option net_exn :=
  match o with
  | GetRaises e => (w, Some e)
  | Response status_code reason content_length chunks stream_end =>
      match raise_for_status status_code reason with
      | Some e => (w, Some e)
      | None =>
          match info_line status_code content_length with
          | Raise e => (w, Some (Unexpected e))
          | Ok l =>
              let '(w, broke) := stream chunks (print l w) in
              match (if broke then None else stream_end) with
              | Some e => (w, Some e)
              | None => (sleep 1 w, None)
              end
          end
      end
  end.

Definition retry_line (kind msg : string) : string :=
  nl +:+ "[NETWORK/Wi-Fi Thread ERROR]: Request failed (" +:+ kind +:+ "): "
  +:+ msg +:+ ". Retrying in 5 seconds.".

Fixpoint loop (script : list iter) (w : world) : loop_exit * world :=
  match script with
  | [] => (Looping, w)
  | it :: rest =>
      let w := observe (cancel it) w in
      if Token.is_set (stop_event w) then (Cancelled, w)
      else match attempt (outcome it) w with
           | (w, None) => loop rest w
           | (w, Some (SSLError msg)) =>
               loop rest (sleep 5 (print (retry_line "SSL" msg) w))
           | (w, Some (RequestException msg)) =>
               loop rest (sleep 5 (print (retry_line "Request" msg) w))
           | (w, Some (Unexpected e)) => (Raised e, w)
           end
  end.

Definition critical_line (e : exn) : string :=
  nl +:+ "[NETWORK/Wi-Fi Thread CRITICAL ERROR]: " +:+ exn_str e.

Definition network_stress (script : list iter) (w : world) : status * world :=
  let w := print ("[NETWORK/Wi-Fi Thread]: Starting continuous download from: "
                  +:+ NETWORK_URL) w in
  match loop script w with
  | (Looping, w) => (StillRunning, w)
  | (Cancelled, w) => (Returned, w)
  | (Raised e, w) =>
      (Returned,
       if Token.is_set (stop_event w) then w else print (critical_line e) w)
  end.

(** An iteration that can only end well or in an exception the inner
    handlers catch: the header, if any, is one [int] and the division
    accept. *)
Definition benign (it : iter) : bool :=
  match outcome it with
  | GetRaises e => retried e
  | Response status_code _ content_length _ stream_end =>
      match info_line status_code content_length with
      | Ok _ => match stream_end with Some e => retried e | None => true end
      | Raise _ => false
      end
  end.

End Collaborators.

(** An iteration whose request fails before any byte is streamed: the
    call raises an exception the inner handlers catch, or the status is
    4xx or 5xx. *)
Definition refused (it : iter) : bool :=
  negb (cancel it)
  && match outcome it with
     | GetRaises e => retried e
     | Response status_code _ _ _ _ => (400 <=? status_code) && (status_code <? 600)
     end.

(** The polls of the event made while a response streams. *)
Definition chunk_polls (o : get_outcome) : list bool :=
  match o with
  | GetRaises _ => []
  | Response _ _ _ chunks _ => chunks
  end.

(** Nobody sets the event during this iteration. *)
Definition undisturbed (it : iter) : bool :=
  negb (cancel it) && forallb negb (chunk_polls (outcome it)).

End Network.

(** What the chunk with reference [r] holds when [first] was the first
    reference handed out: the first chunk is never reversed, every later
    one is. *)
Definition chunk_of (n : Z) (first r : nat) : Ram.chunk :=
  if decide (r = first) then Ram.new_chunk n else reverse (Ram.new_chunk n).

Definition contents_at (n : Z) (first : nat) (st : Ram.state) : Prop :=
  forall r c, Ram.heap st !! r = Some c -> c = chunk_of n first r.

(** The byte counts the reads of a trace returned, in order. *)
Definition read_sizes (t : list event) : list Z :=
  omap (fun e => match e with EFileRead n => Some n | _ => None end) t.
Arguments read_sizes : simpl never.

(** A disk iteration in which no exception says the file has vanished. *)
Definition file_stays (it : Disk.iter) : bool :=
  match Disk.write_err it with
  | Some f => negb (is_file_not_found (wf_exn f))
  | None => true
  end
  && match Disk.read_err it with
     | Some e => negb (is_file_not_found e)
     | None => true
     end.

(** What the cache worker does to a cell it touches, once and [k] times. *)
Definition bump (x : float) : float := (x * Cache.factor + 1.0)%float.

Fixpoint bumped (k : nat) (x : float) : float :=
  match k with
  | O => x
  | S k => bumped k (bump x)
  end.

(** The world after [k] quiet turns of the waiting loop of [main]. *)
Fixpoint waited (k : nat) (w : world) : world :=
  match k with
  | O => w
  | S k => waited k (sleep 1 w)
  end.

(** ** Sample runs *)

Definition w_init : world := World false None None [].

(** A world in which the event is set. *)
Definition w_set : world := World true None None [].

Definition denied : exn :=
  OtherException ("[Errno 13] Permission denied: '" +:+ DISK_FILE +:+ "'").

Definition io_error : exn :=
  OtherException "[Errno 5] Input/output error".


(** The harness started on four cores, the file in place. *)
Definition w_started : world := Orchestrator.start (Some 4) CreateOk w_init.

(** The harness started where the file cannot be created. *)
Definition w_started_no_file : world :=
  Orchestrator.start (Some 4) (CreateFails denied None) w_init.

(** ... and the world its disk worker leaves behind. *)
Definition w_disk_failed : world :=
  (Disk.disk_stress (CreateFails denied None) [Disk.quiet; Disk.quiet] w_started_no_file).2.

(** Six undisturbed iterations of the memory worker. *)
Definition six_insertions : list Ram.iter :=
  replicate 6 (Ram.Iter false None).

(** One monitor interval in which 10,485,760 bytes are sent and 5,242,880
    received, the disk idle. *)
Definition interval_example : Monitor.iter :=
  Monitor.Iter false None false
    (Monitor.NetIO 0 0) (Monitor.DiskIO 0 0)
    (Monitor.NetIO 10485760 5242880) (Monitor.DiskIO 0 0)
    12.5 (Monitor.VMem 40 (3 * 4096 ^ 3)) ∅.

(** An interval in which the first call to psutil raises. *)
Definition interval_failing : Monitor.iter :=
  Monitor.Iter false (Some (OtherException "psutil.AccessDenied")) false
    (Monitor.NetIO 0 0) (Monitor.DiskIO 0 0)
    (Monitor.NetIO 0 0) (Monitor.DiskIO 0 0)
    0 (Monitor.VMem 0 0) ∅.

(** An interval in which a call to psutil made after the sleep raises. *)
Definition interval_failing_late : Monitor.iter :=
  Monitor.Iter false (Some (OtherException "psutil.AccessDenied")) true
    (Monitor.NetIO 0 0) (Monitor.DiskIO 0 0)
    (Monitor.NetIO 0 0) (Monitor.DiskIO 0 0)
    0 (Monitor.VMem 0 0) ∅.

(** The scheduler worker after two undisturbed iterations. *)
Definition io_after_two : world :=
  World false None None
    [EPrint false (Text "[I/O Bound Thread]: Starting high context-switching load...");
     ESleep IoBound.pause; ESleep IoBound.pause].

(** Stand-ins for [int] and the [.1f] format that know one header, the
    104857600 of the 100 MB file. *)
Definition sample_int (s : string) : result Z :=
  if String.eqb s "104857600" then Ok 104857600
  else Raise (ValueError ("invalid literal for int() with base 10: '" +:+ s +:+ "'")).

Definition sample_format (x : float) : string :=
  if (x =? 6.25)%float then "6.2" else "?".

Definition two_refusals : list Network.iter :=
  [Network.Iter false (Network.GetRaises (Network.SSLError "certificate has expired"));
   Network.Iter false (Network.Response 503 "Service Unavailable" None [] None)].

(** An interval on a machine whose "coretemp" group lists no sensor,
    though "cpu_thermal" has one. *)
Definition interval_no_sensor : Monitor.iter :=
  Monitor.Iter false None false
    (Monitor.NetIO 0 0) (Monitor.DiskIO 0 0)
    (Monitor.NetIO 0 0) (Monitor.DiskIO 0 0)
    0 (Monitor.VMem 0 0) (<["coretemp" := []]> {["cpu_thermal" := [48.5%float]]}).

(** * Properties *)

(** ** Bookkeeping on worlds *)

Lemma trace_emit e w : trace (emit e w) = trace w ++ [e].
Proof. reflexivity. Qed.

Lemma observe_keeps_set c w :
  stop_event w = true -> stop_event (observe c w) = true.
Proof. destruct c; simpl; auto. Qed.

Lemma observe_false w : observe false w = w.
Proof. reflexivity. Qed.

Lemma trace_observe c w : trace (observe c w) = trace w.
Proof. destruct c; reflexivity. Qed.

Lemma count_app p t1 t2 : count p (t1 ++ t2) = (count p t1 + count p t2)%nat.
Proof. unfold count. rewrite filter_app, length_app. reflexivity. Qed.

Lemma count_snoc p t e :
  count p (t ++ [e]) = (count p t + if p e then 1 else 0)%nat.
Proof.
  rewrite count_app. f_equal. unfold count.
  destruct (p e) eqn:E.
  - rewrite filter_cons_True by assumption. reflexivity.
  - rewrite filter_cons_False by congruence. reflexivity.
Qed.

(** ** CancellationToken *)

Section TokenFacts.

Import Token.

Lemma run_from_set calls :
  (run true calls).1 = true /\ Forall (fun o => o.2 = true) (run true calls).2.
Proof.
  induction calls as [|[tid o] rest [IHf IHo]].
  - split; [reflexivity | constructor].
  - destruct o; simpl; unfold Token.set, Token.is_set;
      destruct (run true rest) as [final obs]; split; try assumption.
    constructor; [reflexivity | assumption].
Qed.

Lemma run_app flag c1 c2 :
  run flag (c1 ++ c2) =
  ((run (run flag c1).1 c2).1, (run flag c1).2 ++ (run (run flag c1).1 c2).2).
Proof.
  revert flag. induction c1 as [|[tid o] rest IH]; intros flag; simpl.
  - destruct (run flag c2); reflexivity.
  - destruct (step flag o) as [flag' seen]. rewrite IH.
    destruct (run flag' rest) as [f1 o1]; simpl.
    destruct seen; reflexivity.
Qed.

Lemma run_ends_with_set flag calls tid :
  (run flag (calls ++ [(tid, OpSet)])).1 = true.
Proof. rewrite run_app. reflexivity. Qed.

(** No thread of the program unsets the event: a loop that finds it set
    stops at that poll, and the handlers only ever call [set()]. *)

Ltac poll_set H :=
  match goal with
  | |- context [Token.is_set (stop_event (observe ?c ?w))] =>
      let E := fresh "E" in
      assert (E : stop_event (observe c w) = true)
        by (apply observe_keeps_set; exact H);
      unfold Token.is_set; rewrite E
  end.

Lemma cpu_loop_when_set script w :
  stop_event w = true -> stop_event (Cpu.loop script w).2 = true.
Proof.
  intros H. destruct script as [|it rest]; cbn [Cpu.loop]; [exact H|].
  poll_set H. exact E.
Qed.

Lemma cache_loop_when_set a s script st w :
  stop_event w = true -> stop_event (Cache.loop a s script st w).2 = true.
Proof.
  intros H. destruct script as [|it rest]; cbn [Cache.loop]; [exact H|].
  poll_set H. exact E.
Qed.

Lemma ram_loop_when_set n script st w :
  stop_event w = true -> stop_event (Ram.loop n script st w).2 = true.
Proof.
  intros H. destruct script as [|it rest]; cbn [Ram.loop]; [exact H|].
  poll_set H. exact E.
Qed.

Lemma disk_loop_when_set script w :
  stop_event w = true -> stop_event (Disk.loop script w).2 = true.
Proof.
  intros H. destruct script as [|it rest]; cbn [Disk.loop]; [exact H|].
  poll_set H. exact E.
Qed.

Lemma monitor_loop_when_set ta script w :
  stop_event w = true -> stop_event (Monitor.loop ta script w).2 = true.
Proof.
  intros H. destruct script as [|it rest]; cbn [Monitor.loop]; [exact H|].
  poll_set H. exact E.
Qed.

Lemma gpu_loop_when_set script g w :
  stop_event w = true -> stop_event (Gpu.loop script g w).2 = true.
Proof.
  intros H. destruct script as [|it rest]; cbn [Gpu.loop]; [exact H|].
  poll_set H. exact E.
Qed.

Lemma io_loop_when_set script w :
  stop_event w = true -> stop_event (IoBound.loop script w).2 = true.
Proof.
  intros H. destruct script as [|it rest]; cbn [IoBound.loop]; [exact H|].
  poll_set H. exact E.
Qed.

Lemma network_loop_when_set py_int fmt script w :
  stop_event w = true -> stop_event (Network.loop py_int fmt script w).2 = true.
Proof.
  intros H. destruct script as [|it rest]; cbn [Network.loop]; [exact H|].
  poll_set H. exact E.
Qed.

(** A handler of the form [if not stop_event.is_set(): print(...)]. *)
Lemma guarded_print_keeps_set s w :
  stop_event w = true ->
  stop_event (if Token.is_set (stop_event w) then w else print s w) = true.
Proof. intros H. unfold Token.is_set. rewrite H. exact H. Qed.

Lemma cpu_keeps_set tid script w :
  stop_event w = true -> stop_event (Cpu.cpu_stress tid script w).2 = true.
Proof.
  intros H. unfold Cpu.cpu_stress.
  pose proof (cpu_loop_when_set script (print ("[CPU Thread " +:+ pretty tid
    +:+ "]: Starting matrix multiplication loop...") w) H) as L.
  destruct (Cpu.loop script _) as [[| e |] w1]; cbn [snd] in *; try exact L.
  apply guarded_print_keeps_set, L.
Qed.

Lemma cache_keeps_set af script w :
  stop_event w = true -> stop_event (Cache.cache_stress af script w).2 = true.
Proof.
  intros H. unfold Cache.cache_stress.
  destruct af as [e|]; cbn [snd].
  - apply guarded_print_keeps_set, H.
  - match goal with |- context [Cache.loop ?a ?s ?sc ?st ?w0] =>
      pose proof (cache_loop_when_set a s sc st w0 H) as L;
      destruct (Cache.loop a s sc st w0) as [[[| e |] st1] w1]
    end; cbn [snd] in *; try exact L.
    apply guarded_print_keeps_set, L.
Qed.

Lemma ram_keeps_set n next script w :
  stop_event w = true -> stop_event (Ram.ram_stress_with n next script w).2 = true.
Proof.
  intros H. unfold Ram.ram_stress_with.
  match goal with |- context [Ram.loop ?a ?sc ?st ?w0] =>
    pose proof (ram_loop_when_set a sc st w0 H) as L;
    destruct (Ram.loop a sc st w0) as [[[| e |] st1] w1]
  end; cbn [snd] in *; try exact L.
  destruct e; cbn [snd]; try (apply guarded_print_keeps_set, L). exact L.
Qed.

Lemma disk_keeps_set cr script w :
  stop_event w = true -> stop_event (Disk.disk_stress cr script w).2 = true.
Proof.
  intros H. unfold Disk.disk_stress.
  match goal with |- context [Disk.loop ?sc ?w0] =>
    pose proof (disk_loop_when_set sc w0 H) as L;
    destruct (Disk.loop sc w0) as [[| e |] w1]
  end; cbn [snd] in *; try exact L.
  destruct e; cbn [snd]; try (apply guarded_print_keeps_set, L).
  destruct cr; cbn [create_file snd]; [exact L | reflexivity].
Qed.

Lemma monitor_keeps_set ta script w :
  stop_event w = true -> stop_event (Monitor.diagnosis_monitor ta script w).2 = true.
Proof.
  intros H. unfold Monitor.diagnosis_monitor.
  match goal with |- context [Monitor.loop ?a ?sc ?w0] =>
    pose proof (monitor_loop_when_set a sc w0 H) as L;
    destruct (Monitor.loop a sc w0) as [[| e |] w1]
  end; cbn [snd] in *; try exact L.
  apply guarded_print_keeps_set, L.
Qed.

Lemma gpu_keeps_set script w :
  stop_event w = true -> stop_event (Gpu.gpu_stress script w).2 = true.
Proof.
  intros H. unfold Gpu.gpu_stress.
  match goal with |- context [Gpu.loop ?sc ?g ?w0] =>
    pose proof (gpu_loop_when_set sc g w0 H) as L;
    destruct (Gpu.loop sc g w0) as [[[| e |] g1] w1]
  end; cbn [snd] in *; try exact L.
  apply guarded_print_keeps_set, L.
Qed.

Lemma io_keeps_set script w :
  stop_event w = true -> stop_event (IoBound.io_bound_stress script w).2 = true.
Proof.
  intros H. unfold IoBound.io_bound_stress.
  match goal with |- context [IoBound.loop ?sc ?w0] =>
    pose proof (io_loop_when_set sc w0 H) as L;
    destruct (IoBound.loop sc w0) as [[| e |] w1]
  end; cbn [snd] in *; try exact L.
  apply guarded_print_keeps_set, L.
Qed.

Lemma network_keeps_set py_int fmt script w :
  stop_event w = true ->
  stop_event (Network.network_stress py_int fmt script w).2 = true.
Proof.
  intros H. unfold Network.network_stress.
  match goal with |- context [Network.loop ?pi ?f ?sc ?w0] =>
    pose proof (network_loop_when_set pi f sc w0 H) as L;
    destruct (Network.loop pi f sc w0) as [[| e |] w1]
  end; cbn [snd] in *; try exact L.
  apply guarded_print_keeps_set, L.
Qed.

Lemma cleanup_when_set rf w :
  stop_event w = true -> Orchestrator.cleanup rf w = w.
Proof. intros H. unfold Orchestrator.cleanup, Token.is_set. rewrite H. reflexivity. Qed.

Lemma wait_when_set ticks w :
  stop_event w = true -> Orchestrator.wait ticks w = (Returned, w).
Proof. intros H. destruct ticks; simpl; unfold Token.is_set; rewrite H; reflexivity. Qed.

(** With the event set the waiting loop and the join of the pool end at
    once, and [cleanup] returns at its guard. *)
Lemma left_over_when_set ticks w :
  stop_event w = true -> Orchestrator.left_over ticks w = ticks.
Proof. intros H. destruct ticks; cbn [Orchestrator.left_over]; unfold Token.is_set; rewrite H; reflexivity. Qed.

Lemma join_when_set ticks w :
  stop_event w = true -> Orchestrator.join_pool ticks w = (Returned, w).
Proof.
  intros H. destruct ticks; cbn [Orchestrator.join_pool]; unfold Token.is_set; rewrite H;
    destruct (executor w); reflexivity.
Qed.

Lemma exit_after_event_set ticks rf w :
  stop_event w = true -> Orchestrator.wait_and_exit ticks rf w = (Returned, w).
Proof.
  intros H. unfold Orchestrator.wait_and_exit.
  rewrite wait_when_set, left_over_when_set, join_when_set by exact H.
  rewrite cleanup_when_set by exact H. reflexivity.
Qed.

(** C4.  Whatever calls came before, from whatever threads, once some
    thread has called [set()] the event is set, it stays set through every
    later sequence of [set()] and [is_set()] calls, and each of those
    [is_set()] calls returns true.  In particular after any non-empty
    sequence of [set()] calls [is_set()] returns true.  And no thread of
    the program takes the event back: each worker, the monitor, the
    waiting loop, the exit of the interpreter and [cleanup] leave a set
    event set. *)
Theorem token_set_is_permanent :
  (forall (flag : bool) (before later : list (nat * op)) (tid : nat),
    let after_set := (run flag (before ++ [(tid, OpSet)])).1 in
    is_set after_set = true
    /\ (run after_set later).1 = true
    /\ Forall (fun o => o.2 = true) (run after_set later).2)
  /\ (forall w : world, stop_event w = true ->
       (forall tid script, stop_event (Cpu.cpu_stress tid script w).2 = true)
       /\ (forall af script, stop_event (Cache.cache_stress af script w).2 = true)
       /\ (forall n next script, stop_event (Ram.ram_stress_with n next script w).2 = true)
       /\ (forall cr script, stop_event (Disk.disk_stress cr script w).2 = true)
       /\ (forall ta script, stop_event (Monitor.diagnosis_monitor ta script w).2 = true)
       /\ (forall ticks, stop_event (Orchestrator.wait ticks w).2 = true)
       /\ (forall rf, stop_event (Orchestrator.cleanup rf w) = true)
       /\ (forall script, stop_event (Gpu.gpu_stress script w).2 = true)
       /\ (forall script, stop_event (IoBound.io_bound_stress script w).2 = true)
       /\ (forall py_int format_1f script,
             stop_event (Network.network_stress py_int format_1f script w).2 = true)
       /\ (forall ticks, stop_event (Orchestrator.join_pool ticks w).2 = true)
       /\ (forall ticks rf, stop_event (Orchestrator.wait_and_exit ticks rf w).2 = true)).
Proof.
  split.
  - intros flag before later tid after_set.
    assert (Hset : after_set = true) by apply run_ends_with_set.
    rewrite Hset. split; [reflexivity | apply run_from_set].
  - intros w H. repeat split; intros.
    + apply cpu_keeps_set, H.
    + apply cache_keeps_set, H.
    + apply ram_keeps_set, H.
    + apply disk_keeps_set, H.
    + apply monitor_keeps_set, H.
    + rewrite wait_when_set by exact H. exact H.
    + rewrite cleanup_when_set by exact H. exact H.
    + apply gpu_keeps_set, H.
    + apply io_keeps_set, H.
    + apply network_keeps_set, H.
    + rewrite join_when_set by exact H. exact H.
    + rewrite exit_after_event_set by exact H. exact H.
Qed.

Lemma token_set_is_permanent_witness :
  stop_event w_set = true
  /\ forall rf, stop_event (Orchestrator.cleanup rf w_set) = true.
Proof.
  split; [reflexivity|].
  apply (proj2 token_set_is_permanent w_set). reflexivity.
Defined.

End TokenFacts.

(** ** Shutdown *)

Section ShutdownFacts.

Import Orchestrator.

Lemma cleanup_sets_event rf w : stop_event (cleanup rf w) = true.
Proof.
  unfold cleanup, Token.is_set.
  destruct (stop_event w) eqn:E; [exact E|].
  unfold shutdown. cbn.
  destruct (executor w); cbn; destruct (disk_file w); cbn; destruct rf; reflexivity.
Qed.

Lemma cleanups_when_set faults w :
  stop_event w = true -> cleanups faults w = w.
Proof.
  intros H. unfold cleanups.
  induction faults as [|f rest IH]; cbn [fold_left]; [reflexivity|].
  rewrite cleanup_when_set by exact H. exact IH.
Qed.

(** Every call after the first finds the event set and returns at once. *)
Lemma cleanups_cons f rest w : cleanups (f :: rest) w = cleanup f w.
Proof.
  unfold cleanups. cbn [fold_left].
  apply (cleanups_when_set rest), cleanup_sets_event.
Qed.

Ltac cleanup_cases rf w :=
  unfold cleanup, Token.is_set, shutdown;
  destruct (stop_event w) eqn:?; [lia|];
  cbn; destruct (executor w); cbn; destruct (disk_file w); cbn; destruct rf; cbn.

Lemma cleanup_effects_once rf w :
  (count is_pool_shutdown (trace (cleanup rf w)) <= count is_pool_shutdown (trace w) + 1)%nat
  /\ (count is_sleep (trace (cleanup rf w)) <= count is_sleep (trace w) + 1)%nat
  /\ (count is_file_remove (trace (cleanup rf w)) <= count is_file_remove (trace w) + 1)%nat.
Proof.
  repeat split; cleanup_cases rf w; rewrite ?count_snoc; cbn; lia.
Qed.

(** C5.  Calling [cleanup] any number of times in a row shuts the pool
    down, waits the grace period and removes the file at most once each:
    the calls after the first change nothing, and no call changes anything
    once the event is set. *)
Theorem cleanup_idempotent :
  forall (faults : list (option exn)) (w : world),
    let w' := cleanups faults w in
    (count is_pool_shutdown (trace w') <= count is_pool_shutdown (trace w) + 1)%nat
    /\ (count is_sleep (trace w') <= count is_sleep (trace w) + 1)%nat
    /\ (count is_file_remove (trace w') <= count is_file_remove (trace w) + 1)%nat
    /\ (forall f later, cleanups (f :: faults ++ later) w = cleanup f w)
    /\ (stop_event w = true -> w' = w).
Proof.
  intros faults w w'. subst w'.
  destruct faults as [|f rest].
  - cbn [cleanups fold_left]. repeat split; try lia.
    intros f later. apply cleanups_cons.
  - rewrite cleanups_cons.
    destruct (cleanup_effects_once f w) as (H1 & H2 & H3).
    repeat split; try assumption.
    + intros f0 later. apply cleanups_cons.
    + intros H. apply cleanup_when_set, H.
Qed.

Lemma cleanup_idempotent_witness :
  stop_event w_set = true /\ cleanups [None; None; None] w_set = w_set.
Proof.
  split; [reflexivity|].
  apply (cleanup_idempotent [None; None; None] w_set). reflexivity.
Defined.

End ShutdownFacts.

(** ** Disk worker *)

Section DiskFacts.

Import Disk.

Lemma clean_step_file n w :
  disk_file w = Some n ->
  disk_file (clean_step w) = Some (Z.max n write_buffer_len).
Proof.
  intros H. unfold clean_step, write_in_place, read_back. rewrite H. reflexivity.
Qed.

Lemma clean_step_stop n w :
  disk_file w = Some n -> stop_event (clean_step w) = stop_event w.
Proof.
  intros H. unfold clean_step, write_in_place, read_back. rewrite H. reflexivity.
Qed.


Lemma clean_inv it :
  clean it = true -> cancel it = false /\ write_err it = None /\ read_err it = None.
Proof.
  unfold clean, raises. destruct it as [c [f|] [e|]]; cbn; destruct c; cbn;
    intros H; try discriminate H; auto.
Qed.

Lemma loop_clean_cons it rest n w :
  clean it = true -> stop_event w = false -> disk_file w = Some n ->
  loop (it :: rest) w = loop rest (clean_step w).
Proof.
  intros Hc Hs Hf. destruct (clean_inv it Hc) as (C & W & R).
  cbn [loop]. rewrite C, W, R, observe_false. unfold Token.is_set. rewrite Hs.
  unfold clean_step, write_in_place, read_back. rewrite Hf. reflexivity.
Qed.


Lemma count_print p s w :
  p (EPrint false (Text s)) = false -> count p (trace (print s w)) = count p (trace w).
Proof. intros H. unfold print. rewrite trace_emit, count_snoc, H. lia. Qed.


(** The file is missing when the write is attempted. *)
Lemma disk_missing_file cr it rest w :
  stop_event w = false -> disk_file w = None -> cancel it = false ->
  let r := disk_stress cr (it :: rest) w in
  match cr with
  | CreateOk =>
      disk_file r.2 = Some initial_file_len /\ stop_event r.2 = false
      /\ count is_file_create (trace r.2) = (count is_file_create (trace w) + 1)%nat
  | CreateFails e remains =>
      r.1 = Returned /\ stop_event r.2 = true /\ disk_file r.2 = remains
  end.
Proof.
  intros Hs Hf Hc r. subst r. unfold disk_stress. cbn [loop].
  rewrite Hc, observe_false. unfold Token.is_set.
  change (stop_event (print start_line w)) with (stop_event w). rewrite Hs.
  unfold write_in_place.
  change (disk_file (print start_line w)) with (disk_file w). rewrite Hf.
  unfold no_such_file. destruct cr as [|e remains]; cbn [create_file fst snd].
  - repeat split; try assumption.
    unfold print. cbn [trace emit set_file]. rewrite !count_snoc. cbn. lia.
  - repeat split.
Qed.








(** *** The size of the file *)













End DiskFacts.

(** ** Shutdown after a failure of the disk worker *)

Section ShutdownPaths.

Import Orchestrator.

(** However the disk worker comes to a creation that fails, the main
    thread then leaves its loop and [cleanup] changes nothing. *)
Lemma cleanup_skipped_after_disk_failure e remains it rest ticks rf w :
  stop_event w = false -> disk_file w = None -> Disk.cancel it = false ->
  let w' := (Disk.disk_stress (CreateFails e remains) (it :: rest) w).2 in
  stop_event w' = true /\ wait_and_exit ticks rf w' = (Returned, w').
Proof.
  intros Hs Hf Hc w'.
  destruct (disk_missing_file (CreateFails e remains) it rest w Hs Hf Hc)
    as (_ & Hset & _).
  split; [exact Hset | apply exit_after_event_set, Hset].
Qed.

(** C3, on the code.  The file cannot be created: the disk worker logs the
    fatal error and sets the event; the waiting loop of [main] then ends,
    and [cleanup], run at exit, returns at its guard: the pool is not shut
    down, there is no grace wait and nothing more is printed.  On the
    interrupt path the same routine does all of it, once the exit gets to
    it: a first Ctrl+C ends [main] and leaves the interpreter joining the
    pool, a second one interrupts the join and [cleanup] runs in full. *)
Theorem disk_failure_skips_shutdown :
  stop_event w_disk_failed = true
  /\ wait_and_exit [Quiet; Quiet] None w_disk_failed = (Returned, w_disk_failed)
  /\ count is_pool_shutdown (trace w_disk_failed) = 0%nat
  /\ count is_sleep (trace w_disk_failed) = 0%nat
  /\ shut_down <$> executor w_disk_failed = Some false
  /\ last (trace w_disk_failed)
     = Some (EPrint false (Text ("[DISK Thread FATAL ERROR]: Could not create file at "
                                 +:+ DISK_FILE +:+ ". Check disk permissions/path. "
                                 +:+ exn_str denied)))
  /\ wait_and_exit [KeyboardInterrupt] None w_started = (StillRunning, w_started)
  /\ let w_interrupted :=
       (wait_and_exit [KeyboardInterrupt; KeyboardInterrupt] None w_started).2 in
     count is_pool_shutdown (trace w_interrupted) = 1%nat
     /\ count is_sleep (trace w_interrupted) = 1%nat
     /\ count is_file_remove (trace w_interrupted) = 1%nat
     /\ shut_down <$> executor w_interrupted = Some true
     /\ disk_file w_interrupted = None
     /\ last (trace w_interrupted) = Some (EPrint false (Text "[INFO]: Stress test complete.")).
Proof. vm_compute. repeat split; reflexivity. Qed.

End ShutdownPaths.

(** ** DiagnosisMonitor and the console *)

Section MonitorFacts.

Import Monitor.

(** Every figure of the line is [rate] of its two counters. *)
Lemma report_rates it ct :
  r_net_sent (make_report it ct) = rate (bytes_sent (net_io_start it)) (bytes_sent (net_io_end it))
  /\ r_net_recv (make_report it ct) = rate (bytes_recv (net_io_start it)) (bytes_recv (net_io_end it))
  /\ r_disk_read (make_report it ct) = rate (read_bytes (disk_io_start it)) (read_bytes (disk_io_end it))
  /\ r_disk_write (make_report it ct) = rate (write_bytes (disk_io_start it)) (write_bytes (disk_io_end it)).
Proof. repeat split. Qed.

(** C1, on the code.  For the snapshots (sent=0, recv=0) and then
    (sent=10,485,760, recv=5,242,880), 5 seconds apart, the monitor prints
    a send rate of 0.125 and a receive rate of 0.0625: it divides by
    4096 * 4096 = 2^24.  The formula of the spec, with 2^20, gives 2.0 and
    1.0 on the same snapshots. *)
Theorem monitor_rates_on_example :
  rate 0 10485760 = 0.125%float
  /\ rate 0 5242880 = 0.0625%float
  /\ (rate 0 10485760 =? 2)%float = false
  /\ (rate 0 5242880 =? 1)%float = false
  /\ rate_as_specified 0 10485760 = 2%float
  /\ rate_as_specified 0 5242880 = 1%float
  /\ trace (diagnosis_monitor false [interval_example] w_init).2
     = [EPrint false (Text (nl +:+ "[DIAGNOSIS Thread]: Starting system health monitor..."));
        ESleep 5;
        EPrint true (Diagnosis (Report 12.5 40 3 0 0 0.125 0.0625 None))].
Proof. vm_compute. repeat split; reflexivity. Qed.

(** No worker writes a line under the lock, whatever its script. *)

Lemma locked_emit e w :
  is_locked_print e = false -> locked (emit e w) = locked w.
Proof. intros H. unfold locked. rewrite trace_emit, count_snoc, H. lia. Qed.

Lemma locked_print s w : locked (print s w) = locked w.
Proof. apply locked_emit. reflexivity. Qed.

Lemma locked_observe c w : locked (observe c w) = locked w.
Proof. unfold locked. rewrite trace_observe. reflexivity. Qed.

Lemma locked_guarded_print s w :
  locked (if Token.is_set (stop_event w) then w else print s w) = locked w.
Proof. destruct (Token.is_set _); [reflexivity | apply locked_print]. Qed.

Lemma cpu_never_locks tid script w :
  locked (Cpu.cpu_stress tid script w).2 = locked w.
Proof.
  unfold Cpu.cpu_stress.
  assert (L : forall w0, locked (Cpu.loop script w0).2 = locked w0).
  { induction script as [|it rest IH]; intros w0; cbn [Cpu.loop snd]; [reflexivity|].
    destruct (Token.is_set _); cbn [snd]; [apply locked_observe|].
    destruct (Cpu.fault it); cbn [snd]; [apply locked_observe|].
    rewrite IH. apply locked_observe. }
  match goal with |- context [Cpu.loop script ?w0] =>
    specialize (L w0); destruct (Cpu.loop script w0) as [[| e |] w1]
  end; cbn [snd] in *; rewrite ?locked_guarded_print, L;
    apply locked_print.
Qed.

Lemma cache_never_locks af script w :
  locked (Cache.cache_stress af script w).2 = locked w.
Proof.
  unfold Cache.cache_stress. destruct af as [e|]; cbn [snd].
  - rewrite locked_guarded_print. apply locked_print.
  - assert (L : forall a s st w0,
               locked (Cache.loop a s script st w0).2 = locked w0).
    { intros a s. induction script as [|c rest IH]; intros st w0;
        cbn [Cache.loop snd]; [reflexivity|].
      destruct (Token.is_set _); cbn [snd]; [apply locked_observe|].
      destruct (Cache.pass a s st) as [st' [e|]]; cbn [snd]; [apply locked_observe|].
      rewrite IH. apply locked_observe. }
    match goal with |- context [Cache.loop ?a ?s script ?st ?w0] =>
      specialize (L a s st w0); destruct (Cache.loop a s script st w0) as [[[| e |] st1] w1]
    end; cbn [snd] in *; rewrite ?locked_guarded_print, L;
      apply locked_print.
Qed.

Lemma ram_never_locks n next script w :
  locked (Ram.ram_stress_with n next script w).2 = locked w.
Proof.
  unfold Ram.ram_stress_with.
  assert (L : forall st w0, locked (Ram.loop n script st w0).2 = locked w0).
  { induction script as [|it rest IH]; intros st w0; cbn [Ram.loop snd]; [reflexivity|].
    destruct (Token.is_set _); cbn [snd]; [apply locked_observe|].
    destruct (Ram.alloc_fault it); cbn [snd]; [apply locked_observe|].
    rewrite IH. unfold sleep. rewrite locked_emit by reflexivity. apply locked_observe. }
  match goal with |- context [Ram.loop n script ?st ?w0] =>
    specialize (L st w0); destruct (Ram.loop n script st w0) as [[[| e |] st1] w1]
  end; cbn [snd] in *; try destruct e; cbn [snd];
    rewrite ?locked_guarded_print, ?locked_print, L; apply locked_print.
Qed.

Lemma locked_write f c w : locked (write_in_place f c w).1 = locked w.
Proof.
  unfold write_in_place. destruct (disk_file w); [|reflexivity].
  destruct f; cbn [fst]; [reflexivity|]. rewrite locked_emit by reflexivity.
  reflexivity.
Qed.

Lemma locked_read f c w : locked (read_back f c w).1 = locked w.
Proof.
  unfold read_back. destruct (disk_file w); [|reflexivity].
  destruct f; cbn [fst]; [reflexivity|]. apply locked_emit. reflexivity.
Qed.

Lemma locked_create cr c w : locked (create_file cr c w).1 = locked w.
Proof.
  destruct cr; cbn [create_file fst]; [rewrite locked_emit by reflexivity|];
    reflexivity.
Qed.

Lemma disk_never_locks cr script w :
  locked (Disk.disk_stress cr script w).2 = locked w.
Proof.
  unfold Disk.disk_stress.
  assert (L : forall w0, locked (Disk.loop script w0).2 = locked w0).
  { induction script as [|it rest IH]; intros w0; cbn [Disk.loop snd]; [reflexivity|].
    destruct (Token.is_set _); cbn [snd]; [apply locked_observe|].
    pose proof (locked_write (Disk.write_err it) Disk.write_buffer_len
                  (observe (Disk.cancel it) w0)) as W.
    rewrite locked_observe in W.
    destruct (write_in_place _ _ _) as [w1 [e|]]; cbn [fst snd] in *; [exact W|].
    pose proof (locked_read (Disk.read_err it) Disk.write_buffer_len w1) as R.
    destruct (read_back _ _ _) as [w2 [e|]]; cbn [fst snd] in *;
      [rewrite R; exact W|].
    rewrite IH, R. exact W. }
  match goal with |- context [Disk.loop script ?w0] =>
    specialize (L w0); destruct (Disk.loop script w0) as [[| e |] w1]
  end; cbn [snd] in *; try destruct e; cbn [snd];
    rewrite ?locked_guarded_print; try (rewrite L; apply locked_print).
  pose proof (locked_create cr Disk.initial_file_len w1) as C.
  destruct (create_file cr Disk.initial_file_len w1) as [w2 [e|]]; cbn [fst snd] in *.
  - change (locked (print
      ("[DISK Thread FATAL ERROR]: Could not create file at " +:+ DISK_FILE
       +:+ ". Check disk permissions/path. " +:+ exn_str e) w2) = locked w).
    rewrite locked_print, C, L. apply locked_print.
  - rewrite locked_print, C, L. apply locked_print.
Qed.

(** C9, on the code.  The one line a CPU worker prints is written without
    the lock; of the three lines of a monitor that reports once and then
    fails, only the report is written under it; the six lines of [main]
    are written without it; and whatever their scripts, the CPU, cache,
    memory and disk workers add no line written under the lock. *)
Theorem worker_lines_skip_the_lock :
  trace (Cpu.cpu_stress 0 [Cpu.Iter true None] w_init).2
  = [EPrint false (Text "[CPU Thread 0]: Starting matrix multiplication loop...")]
  /\ trace (diagnosis_monitor false [interval_example; interval_failing] w_init).2
     = [EPrint false (Text (nl +:+ "[DIAGNOSIS Thread]: Starting system health monitor..."));
        ESleep 5;
        EPrint true (Diagnosis (Report 12.5 40 3 0 0 0.125 0.0625 None));
        EPrint false (Text "[DIAGNOSIS Thread ERROR]: Monitoring failed: psutil.AccessDenied")]
  /\ count is_unlocked_print (trace w_started) = 6%nat
  /\ count is_print (trace w_started) = 6%nat
  /\ (forall w tid script, locked (Cpu.cpu_stress tid script w).2 = locked w)
  /\ (forall w af script, locked (Cache.cache_stress af script w).2 = locked w)
  /\ (forall w n next script, locked (Ram.ram_stress_with n next script w).2 = locked w)
  /\ (forall w cr script, locked (Disk.disk_stress cr script w).2 = locked w).
Proof.
  split; [vm_compute; reflexivity|]. split; [vm_compute; reflexivity|].
  split; [vm_compute; reflexivity|]. split; [vm_compute; reflexivity|].
  split; [intros; apply cpu_never_locks|].
  split; [intros; apply cache_never_locks|].
  split; [intros; apply ram_never_locks | intros; apply disk_never_locks].
Qed.

End MonitorFacts.

(** ** Cache worker *)

Section CacheFacts.

Import Cache.

Lemma locate_in_bounds a i : 0 <= i < size a -> locate a i = Ok i.
Proof.
  intros [Hlo Hhi]. unfold locate.
  rewrite (proj2 (Z.leb_le 0 i) Hlo), (proj2 (Z.ltb_lt i (size a)) Hhi).
  reflexivity.
Qed.

Lemma touch_in_bounds index st :
  0 <= index < size (data st) ->
  exists st', touch index st = Ok st'
              /\ touched st' = touched st ++ [index]
              /\ size (data st') = size (data st).
Proof.
  intros H. unfold touch, getitem, setitem.
  rewrite (locate_in_bounds _ _ H). cbn.
  eexists. split; [reflexivity|]. split; reflexivity.
Qed.

Lemma for_each_in_bounds s indices : forall st,
  Forall (fun i => 0 <= i * s < size (data st)) indices ->
  (for_each s indices st).2 = None
  /\ touched (for_each s indices st).1 = touched st ++ ((fun i => i * s) <$> indices)
  /\ size (data (for_each s indices st).1) = size (data st).
Proof.
  induction indices as [|i rest IH]; intros st Hall; cbn [for_each fmap list_fmap].
  - rewrite app_nil_r. auto.
  - inversion Hall as [|? ? Hi Hrest]; subst.
    destruct (touch_in_bounds (i * s) st Hi) as (st' & -> & Ht & Hsz).
    destruct (IH st') as (E1 & E2 & E3).
    { rewrite Hsz. exact Hrest. }
    rewrite E1, E2, E3, Ht, Hsz, <- app_assoc. auto.
Qed.

(** The arithmetic of the loop bound. *)
Lemma strided_index_in_bounds a s i :
  0 < s -> 0 <= i < a / s -> 0 <= i * s < a.
Proof.
  intros Hs [Hlo Hhi]. split; [nia|].
  pose proof (Z.mul_div_le a s Hs). nia.
Qed.

Lemma pass_in_bounds a s st :
  0 < s -> size (data st) = a ->
  (pass a s st).2 = None
  /\ touched (pass a s st).1 = touched st ++ ((fun i => i * s) <$> range (a / s))
  /\ size (data (pass a s st).1) = a.
Proof.
  intros Hs <-. unfold pass, floordiv.
  rewrite (proj2 (Z.eqb_neq s 0)) by lia.
  apply for_each_in_bounds.
  unfold range. apply Forall_seqZ. intros i Hi.
  apply strided_index_in_bounds; lia.
Qed.

Lemma strided_inj s : s <> 0 -> Inj (=) (=) (fun i : Z => i * s).
Proof. intros Hs x y H. apply (Z.mul_cancel_r x y s Hs), H. Qed.

Lemma strided_indices a s :
  0 < s ->
  length ((fun i => i * s) <$> range (a / s)) = Z.to_nat (a / s)
  /\ Forall (fun x => (s | x)) ((fun i => i * s) <$> range (a / s))
  /\ NoDup ((fun i => i * s) <$> range (a / s)).
Proof.
  intros Hs. unfold range. repeat split.
  - rewrite length_fmap. apply length_seqZ.
  - apply Forall_fmap, Forall_seqZ. intros i _. cbn. apply Z.divide_factor_r.
  - pose proof (strided_inj s ltac:(lia)) as Hinj.
    apply (NoDup_fmap_2 (fun i => i * s)), NoDup_seqZ.
Qed.

Lemma loop_never_raises a s script : forall st w,
  0 < s -> size (data st) = a ->
  (forall e, (loop a s script st w).1.1 <> Raised e)
  /\ trace (loop a s script st w).2 = trace w.
Proof.
  induction script as [|c rest IH]; intros st w Hs Hsz; cbn [loop].
  - split; [discriminate | reflexivity].
  - destruct (Token.is_set _).
    + split; [discriminate | apply trace_observe].
    + destruct (pass_in_bounds a s st Hs Hsz) as (E1 & _ & E3).
      destruct (pass a s st) as [st' [e|]]; cbn [fst snd] in *; [discriminate E1|].
      destruct (IH st' (observe c w) Hs E3) as [IH1 IH2].
      split; [exact IH1 | rewrite IH2; apply trace_observe].
Qed.

(** C10.  For every i of [range(array_size // stride)] the index
    i * stride lies in [0, array_size), so the read and the write of
    [data[index]] succeed on the allocated array; no pass of the loop
    raises, and unless the allocation itself fails the worker prints its
    start line and never the error line. *)
Theorem cache_index_in_bounds :
  (forall i : Z,
      0 <= i < array_size / stride ->
      0 <= i * stride < array_size
      /\ forall st, size (data st) = array_size ->
                    exists st', touch (i * stride) st = Ok st')
  /\ (forall script st w,
        size (data st) = array_size ->
        forall e, (loop array_size stride script st w).1.1 <> Raised e)
  /\ (forall script w,
        trace (cache_stress None script w).2
        = trace w ++ [EPrint false (Text "[CACHE Thread]: Starting L1/L2/L3 cache stress (large stride access)...")]).
Proof.
  assert (Hs : 0 < stride) by reflexivity.
  repeat apply conj.
  - intros i Hi.
    pose proof (strided_index_in_bounds array_size stride i Hs Hi) as Hb.
    split; [exact Hb|]. intros st Hsz. rewrite <- Hsz in Hb.
    destruct (touch_in_bounds _ st Hb) as (st' & E & _). exists st'. exact E.
  - intros script st w Hsz. apply loop_never_raises; assumption.
  - intros script w. unfold cache_stress.
    match goal with |- context [loop ?a ?s ?sc ?st ?w0] =>
      destruct (loop_never_raises a s sc st w0 Hs eq_refl) as [NR TR];
      destruct (loop a s sc st w0) as [[[| e |] st1] w1]
    end; cbn [fst snd] in *; try exact TR.
    exfalso. apply (NR e). reflexivity.
Qed.

Lemma cache_index_in_bounds_witness :
  0 <= 62499 < array_size / stride /\ 0 <= 62499 * stride < array_size.
Proof.
  split; [split; [discriminate | reflexivity]|].
  destruct cache_index_in_bounds as (Idx & _).
  apply (Idx 62499). split; [discriminate | reflexivity].
Defined.

End CacheFacts.

(** ** Memory worker: the ring of chunks *)

Section RamFacts.

Import Ram.

#[local] Set Warnings "-clear-no-such-hyp".

Lemma ring_at_init next : ring_at next 0 (init next).
Proof.
  unfold ring_at, init. cbn [next_ref memory_chunks heap].
  split; [lia|]. split; [reflexivity|]. apply dom_empty_L.
Qed.

Lemma last_four_length next c :
  length (drop (c - 4) (seq next c)) = Nat.min c 4.
Proof. rewrite length_drop, length_seq. lia. Qed.

Lemma last_four_snoc next c :
  drop (c - 4) (seq next c) ++ [(next + c)%nat] = drop (c - 4) (seq next (S c)).
Proof.
  rewrite seq_S, drop_app_le; [reflexivity|]. rewrite length_seq. lia.
Qed.

Lemma insert_ring_at n next c st :
  ring_at next c st -> ring_at next (S c) (insert n st).
Proof.
  intros (Hn & Hm & Hd). unfold insert. cbn [memory_chunks next_ref heap].
  set (r := next_ref st).
  set (h := if (1 <? length (memory_chunks st ++ [r]))%nat
            then alter reverse r (<[r:=new_chunk n]> (heap st))
            else <[r:=new_chunk n]> (heap st)).
  assert (Hdom : dom h = list_to_set (memory_chunks st ++ [r])).
  { subst h. rewrite list_to_set_app_L.
    destruct (Nat.ltb 1 (length (memory_chunks st ++ [r])));
      rewrite ?dom_alter_L, dom_insert_L, Hd; clear; set_solver. }
  assert (Hring : memory_chunks st ++ [r] = drop (c - 4) (seq next (S c))).
  { subst r. rewrite Hn, Hm. apply last_four_snoc. }
  assert (Hlen : length (memory_chunks st ++ [r]) = S (Nat.min c 4)).
  { rewrite length_app, Hm, last_four_length. cbn. lia. }
  assert (Hst : (if (1 <? length (memory_chunks st ++ [r]))%nat
                 then State (alter reverse r (<[r:=new_chunk n]> (heap st))) (S r)
                            (memory_chunks st ++ [r])
                 else State (<[r:=new_chunk n]> (heap st)) (S r) (memory_chunks st ++ [r]))
                = State h (S r) (memory_chunks st ++ [r])).
  { subst h. destruct (Nat.ltb 1 (length (memory_chunks st ++ [r]))); reflexivity. }
  rewrite Hst. cbn [memory_chunks]. clear Hst.
  destruct (4 <? length (memory_chunks st ++ [r]))%nat eqn:Hfull.
  - apply Nat.ltb_lt in Hfull.
    assert (Hc : (4 <= c)%nat) by lia.
    assert (Hnd : NoDup (memory_chunks st ++ [r])).
    { rewrite Hring. apply sublist_NoDup with (seq next (S c));
        [apply NoDup_seq | apply sublist_drop]. }
    unfold pop0. cbn [memory_chunks heap next_ref].
    destruct (memory_chunks st ++ [r]) as [|oldest rest] eqn:E; [cbn in Hlen; lia|].
    unfold ring_at. cbn [memory_chunks heap next_ref].
    split; [subst r; lia|]. split.
    + change rest with (drop 1 (oldest :: rest)). rewrite Hring, drop_drop.
      f_equal. lia.
    + rewrite dom_delete_L, Hdom. apply NoDup_cons in Hnd as [Hnotin _].
      set_solver.
  - apply Nat.ltb_ge in Hfull.
    unfold ring_at. cbn [memory_chunks heap next_ref].
    split; [subst r; lia|]. split; [|exact Hdom].
    rewrite Hring. f_equal. lia.
Qed.

Lemma clean_inv_ram it :
  clean it = true -> cancel it = false /\ alloc_fault it = None.
Proof.
  unfold clean. destruct it as [c [e|]]; destruct c; cbn; intros H;
    try discriminate H; auto.
Qed.

Lemma loop_clean n next script : forall c st w,
  Forall (fun it => clean it = true) script ->
  stop_event w = false -> ring_at next c st ->
  exists st' w',
    loop n script st w = (Looping, st', w')
    /\ ring_at next (c + length script) st' /\ stop_event w' = false.
Proof.
  induction script as [|it rest IH]; intros c st w Hall Hs Hr.
  - exists st, w. cbn [loop length]. rewrite Nat.add_0_r. auto.
  - inversion Hall as [|? ? Hc Hrest]; subst.
    destruct (clean_inv_ram it Hc) as [C A].
    cbn [loop]. rewrite C, A, observe_false. unfold Token.is_set. rewrite Hs.
    destruct (IH (S c) (insert n st) (sleep 0x1.999999999999ap-4 w) Hrest Hs
                 (insert_ring_at n next c st Hr)) as (st' & w' & E & R & S').
    exists st', w'. rewrite E. cbn [length].
    replace (c + S (length rest))%nat with (S c + length rest)%nat by lia. auto.
Qed.

Lemma last_four_seq next k :
  (4 <= k)%nat -> drop (k - 4) (seq next k) = seq (next + k - 4) 4.
Proof.
  intros Hk.
  assert (E : seq next k = seq next (k - 4) ++ seq (next + (k - 4)) 4)
    by (rewrite <- seq_app; f_equal; lia).
  rewrite E, drop_app_length' by (symmetry; apply length_seq).
  f_equal. lia.
Qed.

(** C6.  While the worker runs undisturbed from its empty list, after any
    number of insertions the ring holds at most 4 chunks, namely the last
    ones inserted, oldest first, and the heap holds these chunks and no
    other; from the fifth insertion on (indeed from the fourth) it holds
    exactly 4. *)
Theorem ring_keeps_last_four :
  forall (n : Z) (next : nat) (script : list iter) (w : world),
    stop_event w = false ->
    Forall (fun it => clean it = true) script ->
    exists st w',
      ram_stress_with n next script w = (StillRunning, Some st, w')
      /\ (length (memory_chunks st) <= 4)%nat
      /\ memory_chunks st = drop (length script - 4) (seq next (length script))
      /\ dom (heap st) = list_to_set (memory_chunks st)
      /\ ((5 <= length script)%nat ->
          length (memory_chunks st) = 4%nat
          /\ memory_chunks st = seq (next + length script - 4) 4).
Proof.
  intros n next script w Hs Hall. unfold ram_stress_with.
  destruct (loop_clean n next script 0 (init next)
              (print "[RAM Thread]: Starting memory allocation and manipulation..." w)
              Hall Hs (ring_at_init next)) as (st & w' & E & (Hn & Hm & Hd) & _).
  rewrite E. exists st, w'. cbn [Nat.add] in Hm.
  split; [reflexivity|]. split; [rewrite Hm, last_four_length; lia|].
  split; [exact Hm|]. split; [exact Hd|].
  intros H5. rewrite Hm. split; [rewrite last_four_length; lia|].
  apply last_four_seq. lia.
Qed.

Lemma ring_keeps_last_four_witness :
  stop_event w_init = false
  /\ Forall (fun it => clean it = true) six_insertions
  /\ exists st w',
       ram_stress_with 3 0 six_insertions w_init = (StillRunning, Some st, w')
       /\ memory_chunks st = [2; 3; 4; 5]%nat.
Proof.
  assert (Hall : Forall (fun it => clean it = true) six_insertions)
    by (repeat constructor).
  split; [reflexivity|]. split; [exact Hall|].
  destruct (ring_keeps_last_four 3 0 six_insertions w_init eq_refl Hall)
    as (st & w' & E & _ & _ & _ & Full).
  exists st, w'. split; [exact E|].
  apply Full. cbn. lia.
Defined.

(** The same run, evaluated: chunks of three elements, the first one
    (reference 0, never reversed) and the second evicted, the others
    reversed in place. *)
Example ring_after_six :
  (fun r => (memory_chunks <$> r.1.2,
             (fun st => (fun ref => heap st !! ref) <$> seq 0 6) <$> r.1.2))
    (ram_stress_with 3 0 six_insertions w_init)
  = (Some [2; 3; 4; 5]%nat,
     Some [None; None; Some [2; 1; 0]; Some [2; 1; 0]; Some [2; 1; 0]; Some [2; 1; 0]]).
Proof. vm_compute. reflexivity. Qed.

End RamFacts.

(** * Further properties of the harness *)

(** ** The event and the workers *)

Section Cancellation.

Lemma observe_true w : observe true w = set_stop w.
Proof. reflexivity. Qed.

Lemma stop_event_guarded_print s w :
  stop_event (if Token.is_set (stop_event w) then w else print s w) = stop_event w.
Proof. destruct (Token.is_set _); reflexivity. Qed.

(** A loop that was still going after [pre] takes up the rest of the
    script from the world it had reached. *)

Lemma cpu_loop_app pre rest : forall w w',
  Cpu.loop pre w = (Looping, w') -> Cpu.loop (pre ++ rest) w = Cpu.loop rest w'.
Proof.
  induction pre as [|it pre IH]; intros w w'; cbn [Cpu.loop app].
  - intros [= <-]. reflexivity.
  - destruct (Token.is_set _); [discriminate|].
    destruct (Cpu.fault it); [discriminate|]. apply IH.
Qed.

Lemma gpu_loop_app pre rest : forall g w g' w',
  Gpu.loop pre g w = (Looping, g', w') ->
  Gpu.loop (pre ++ rest) g w = Gpu.loop rest g' w'.
Proof.
  induction pre as [|it pre IH]; intros g w g' w'; cbn [Gpu.loop app].
  - intros [= <- <-]. reflexivity.
  - destruct (Token.is_set _); [discriminate|].
    destruct (Gpu.fault it); [discriminate|]. apply IH.
Qed.

Lemma io_loop_app pre rest : forall w w',
  IoBound.loop pre w = (Looping, w') ->
  IoBound.loop (pre ++ rest) w = IoBound.loop rest w'.
Proof.
  induction pre as [|it pre IH]; intros w w'; cbn [IoBound.loop app].
  - intros [= <-]. reflexivity.
  - destruct (Token.is_set _); [discriminate|].
    destruct (IoBound.fault it); [discriminate|]. apply IH.
Qed.

Lemma cache_loop_app a s pre rest : forall st w st' w',
  Cache.loop a s pre st w = (Looping, st', w') ->
  Cache.loop a s (pre ++ rest) st w = Cache.loop a s rest st' w'.
Proof.
  induction pre as [|c pre IH]; intros st w st' w'; cbn [Cache.loop app].
  - intros [= <- <-]. reflexivity.
  - destruct (Token.is_set _); [discriminate|].
    destruct (Cache.pass a s st) as [st1 [e|]]; [discriminate|]. apply IH.
Qed.

Lemma ram_loop_app n pre rest : forall st w st' w',
  Ram.loop n pre st w = (Looping, st', w') ->
  Ram.loop n (pre ++ rest) st w = Ram.loop n rest st' w'.
Proof.
  induction pre as [|it pre IH]; intros st w st' w'; cbn [Ram.loop app].
  - intros [= <- <-]. reflexivity.
  - destruct (Token.is_set _); [discriminate|].
    destruct (Ram.alloc_fault it); [discriminate|]. apply IH.
Qed.

Lemma disk_loop_app pre rest : forall w w',
  Disk.loop pre w = (Looping, w') -> Disk.loop (pre ++ rest) w = Disk.loop rest w'.
Proof.
  induction pre as [|it pre IH]; intros w w'; cbn [Disk.loop app].
  - intros [= <-]. reflexivity.
  - destruct (Token.is_set _); [discriminate|].
    destruct (write_in_place _ _ _) as [w1 [e|]]; [discriminate|].
    destruct (read_back _ _ _) as [w2 [e|]]; [discriminate|]. apply IH.
Qed.

Lemma monitor_loop_app ta pre rest : forall w w',
  Monitor.loop ta pre w = (Looping, w') ->
  Monitor.loop ta (pre ++ rest) w = Monitor.loop ta rest w'.
Proof.
  induction pre as [|it pre IH]; intros w w'; cbn [Monitor.loop app].
  - intros [= <-]. reflexivity.
  - destruct (Token.is_set _); [discriminate|].
    destruct (Monitor.iteration ta it _) as [w1 [e|]]; [discriminate|]. apply IH.
Qed.

Lemma network_loop_app py_int fmt pre rest : forall w w',
  Network.loop py_int fmt pre w = (Looping, w') ->
  Network.loop py_int fmt (pre ++ rest) w = Network.loop py_int fmt rest w'.
Proof.
  induction pre as [|it pre IH]; intros w w'; cbn [Network.loop app].
  - intros [= <-]. reflexivity.
  - destruct (Token.is_set _); [discriminate|].
    destruct (Network.attempt py_int fmt _ _) as [w1 [[m|m|e]|]];
      try discriminate; apply IH.
Qed.

Lemma cpu_cancel tid pre it rest w w' :
  Cpu.cpu_stress tid pre w = (StillRunning, w') -> Cpu.cancel it = true ->
  Cpu.cpu_stress tid (pre ++ it :: rest) w = (Returned, set_stop w').
Proof.
  unfold Cpu.cpu_stress. intros H Hc.
  destruct (Cpu.loop pre _) as [[| e |] w1] eqn:E; try discriminate H.
  injection H as ->. rewrite (cpu_loop_app _ _ _ _ E).
  cbn [Cpu.loop]. rewrite Hc. reflexivity.
Qed.

Lemma gpu_cancel pre it rest w g w' :
  Gpu.gpu_stress pre w = (StillRunning, g, w') -> Gpu.cancel it = true ->
  Gpu.gpu_stress (pre ++ it :: rest) w = (Returned, g, set_stop w').
Proof.
  unfold Gpu.gpu_stress. intros H Hc.
  destruct (Gpu.loop pre _ _) as [[[| e |] g1] w1] eqn:E; try discriminate H.
  injection H as -> ->. rewrite (gpu_loop_app _ _ _ _ _ _ E).
  cbn [Gpu.loop]. rewrite Hc. reflexivity.
Qed.

Lemma io_cancel pre it rest w w' :
  IoBound.io_bound_stress pre w = (StillRunning, w') -> IoBound.cancel it = true ->
  IoBound.io_bound_stress (pre ++ it :: rest) w = (Returned, set_stop w').
Proof.
  unfold IoBound.io_bound_stress. intros H Hc.
  destruct (IoBound.loop pre _) as [[| e |] w1] eqn:E; try discriminate H.
  injection H as ->. rewrite (io_loop_app _ _ _ _ E).
  cbn [IoBound.loop]. rewrite Hc. reflexivity.
Qed.

Lemma cache_cancel pre rest w st w' :
  Cache.cache_stress None pre w = (StillRunning, Some st, w') ->
  Cache.cache_stress None (pre ++ true :: rest) w = (Returned, Some st, set_stop w').
Proof.
  unfold Cache.cache_stress. intros H.
  destruct (Cache.loop _ _ pre _ _) as [[[| e |] st1] w1] eqn:E; try discriminate H.
  injection H as -> ->. rewrite (cache_loop_app _ _ _ _ _ _ _ _ E).
  reflexivity.
Qed.

Lemma ram_cancel n next pre it rest w st w' :
  Ram.ram_stress_with n next pre w = (StillRunning, Some st, w') ->
  Ram.cancel it = true ->
  Ram.ram_stress_with n next (pre ++ it :: rest) w = (Returned, None, set_stop w').
Proof.
  unfold Ram.ram_stress_with. intros H Hc.
  destruct (Ram.loop n pre _ _) as [[[| e |] st1] w1] eqn:E;
    try discriminate H; try (destruct e; discriminate H).
  injection H as -> ->. rewrite (ram_loop_app _ _ _ _ _ _ _ E).
  cbn [Ram.loop]. rewrite Hc. reflexivity.
Qed.

Lemma disk_cancel cr pre it rest w w' :
  Disk.disk_stress cr pre w = (StillRunning, w') -> Disk.cancel it = true ->
  Disk.disk_stress cr (pre ++ it :: rest) w = (Returned, set_stop w').
Proof.
  unfold Disk.disk_stress. intros H Hc.
  destruct (Disk.loop pre _) as [[| e |] w1] eqn:E; try discriminate H.
  - destruct e; try discriminate H.
    destruct (create_file _ _ _) as [w2 [e|]]; discriminate H.
  - injection H as ->. rewrite (disk_loop_app _ _ _ _ E).
    cbn [Disk.loop]. rewrite Hc. reflexivity.
Qed.

Lemma monitor_cancel ta pre it rest w w' :
  Monitor.diagnosis_monitor ta pre w = (StillRunning, w') -> Monitor.cancel it = true ->
  Monitor.diagnosis_monitor ta (pre ++ it :: rest) w = (Returned, set_stop w').
Proof.
  unfold Monitor.diagnosis_monitor. intros H Hc.
  destruct (Monitor.loop ta pre _) as [[| e |] w1] eqn:E; try discriminate H.
  injection H as ->. rewrite (monitor_loop_app _ _ _ _ _ E).
  cbn [Monitor.loop]. rewrite Hc. reflexivity.
Qed.

Lemma network_cancel py_int fmt pre it rest w w' :
  Network.network_stress py_int fmt pre w = (StillRunning, w') ->
  Network.cancel it = true ->
  Network.network_stress py_int fmt (pre ++ it :: rest) w = (Returned, set_stop w').
Proof.
  unfold Network.network_stress. intros H Hc.
  destruct (Network.loop py_int fmt pre _) as [[| e |] w1] eqn:E; try discriminate H.
  injection H as ->. rewrite (network_loop_app _ _ _ _ _ _ E).
  cbn [Network.loop]. rewrite Hc. reflexivity.
Qed.

(** X1.  Cancellation is honoured at the next poll: whenever a worker or
    the monitor is still running after some iterations and finds the
    event set at its next poll, it returns there, whatever was scripted to
    follow, having done nothing since the last iteration: no I/O, no
    sleep, no error line; the memory worker has released its ring. *)
Theorem cancellation_at_next_poll :
  (forall tid pre it rest w w',
      Cpu.cpu_stress tid pre w = (StillRunning, w') -> Cpu.cancel it = true ->
      Cpu.cpu_stress tid (pre ++ it :: rest) w = (Returned, set_stop w'))
  /\ (forall pre it rest w g w',
      Gpu.gpu_stress pre w = (StillRunning, g, w') -> Gpu.cancel it = true ->
      Gpu.gpu_stress (pre ++ it :: rest) w = (Returned, g, set_stop w'))
  /\ (forall pre rest w st w',
      Cache.cache_stress None pre w = (StillRunning, Some st, w') ->
      Cache.cache_stress None (pre ++ true :: rest) w = (Returned, Some st, set_stop w'))
  /\ (forall pre it rest w w',
      IoBound.io_bound_stress pre w = (StillRunning, w') -> IoBound.cancel it = true ->
      IoBound.io_bound_stress (pre ++ it :: rest) w = (Returned, set_stop w'))
  /\ (forall n next pre it rest w st w',
      Ram.ram_stress_with n next pre w = (StillRunning, Some st, w') ->
      Ram.cancel it = true ->
      Ram.ram_stress_with n next (pre ++ it :: rest) w = (Returned, None, set_stop w'))
  /\ (forall cr pre it rest w w',
      Disk.disk_stress cr pre w = (StillRunning, w') -> Disk.cancel it = true ->
      Disk.disk_stress cr (pre ++ it :: rest) w = (Returned, set_stop w'))
  /\ (forall py_int fmt pre it rest w w',
      Network.network_stress py_int fmt pre w = (StillRunning, w') ->
      Network.cancel it = true ->
      Network.network_stress py_int fmt (pre ++ it :: rest) w = (Returned, set_stop w'))
  /\ (forall ta pre it rest w w',
      Monitor.diagnosis_monitor ta pre w = (StillRunning, w') ->
      Monitor.cancel it = true ->
      Monitor.diagnosis_monitor ta (pre ++ it :: rest) w = (Returned, set_stop w')).
Proof.
  split; [exact cpu_cancel|]. split; [exact gpu_cancel|].
  split; [exact cache_cancel|]. split; [exact io_cancel|].
  split; [exact ram_cancel|]. split; [exact disk_cancel|].
  split; [exact network_cancel | exact monitor_cancel].
Qed.

Lemma cancellation_at_next_poll_witness :
  IoBound.io_bound_stress [IoBound.Iter false None; IoBound.Iter false None] w_init
  = (StillRunning, io_after_two)
  /\ IoBound.cancel (IoBound.Iter true None) = true
  /\ IoBound.io_bound_stress
       ([IoBound.Iter false None; IoBound.Iter false None]
        ++ IoBound.Iter true None :: [IoBound.Iter false None]) w_init
     = (Returned, set_stop io_after_two).
Proof.
  split; [reflexivity|]. split; [reflexivity|].
  destruct cancellation_at_next_poll as (_ & _ & _ & Io & _).
  apply Io; reflexivity.
Defined.

End Cancellation.

Section WhoSetsTheEvent.

Lemma cpu_loop_stop script : forall w,
  Forall (fun it => Cpu.cancel it = false) script ->
  stop_event (Cpu.loop script w).2 = stop_event w.
Proof.
  induction script as [|it rest IH]; intros w Hall; cbn [Cpu.loop]; [reflexivity|].
  inversion Hall as [|? ? Hc Hrest]; subst. rewrite Hc, observe_false.
  destruct (Token.is_set _); [reflexivity|].
  destruct (Cpu.fault it); [reflexivity|]. apply IH, Hrest.
Qed.

Lemma gpu_loop_stop script : forall g w,
  Forall (fun it => Gpu.cancel it = false) script ->
  stop_event (Gpu.loop script g w).2 = stop_event w.
Proof.
  induction script as [|it rest IH]; intros g w Hall; cbn [Gpu.loop]; [reflexivity|].
  inversion Hall as [|? ? Hc Hrest]; subst. rewrite Hc, observe_false.
  destruct (Token.is_set _); [reflexivity|].
  destruct (Gpu.fault it); [reflexivity|]. apply IH, Hrest.
Qed.

Lemma io_loop_stop script : forall w,
  Forall (fun it => IoBound.cancel it = false) script ->
  stop_event (IoBound.loop script w).2 = stop_event w.
Proof.
  induction script as [|it rest IH]; intros w Hall; cbn [IoBound.loop]; [reflexivity|].
  inversion Hall as [|? ? Hc Hrest]; subst. rewrite Hc, observe_false.
  destruct (Token.is_set _); [reflexivity|].
  destruct (IoBound.fault it); [reflexivity|]. rewrite IH by exact Hrest. reflexivity.
Qed.

Lemma cache_loop_stop a s script : forall st w,
  Forall (fun c => c = false) script ->
  stop_event (Cache.loop a s script st w).2 = stop_event w.
Proof.
  induction script as [|c rest IH]; intros st w Hall; cbn [Cache.loop]; [reflexivity|].
  inversion Hall as [|? ? Hc Hrest]; subst. rewrite observe_false.
  destruct (Token.is_set _); [reflexivity|].
  destruct (Cache.pass a s st) as [st' [e|]]; [reflexivity|]. apply IH, Hrest.
Qed.

Lemma ram_loop_stop n script : forall st w,
  Forall (fun it => Ram.cancel it = false) script ->
  stop_event (Ram.loop n script st w).2 = stop_event w.
Proof.
  induction script as [|it rest IH]; intros st w Hall; cbn [Ram.loop]; [reflexivity|].
  inversion Hall as [|? ? Hc Hrest]; subst. rewrite Hc, observe_false.
  destruct (Token.is_set _); [reflexivity|].
  destruct (Ram.alloc_fault it); [reflexivity|]. rewrite IH by exact Hrest. reflexivity.
Qed.

Lemma stop_event_write f c w : stop_event (write_in_place f c w).1 = stop_event w.
Proof.
  unfold write_in_place. destruct (disk_file w); [|reflexivity].
  destruct f; reflexivity.
Qed.

Lemma stop_event_read f c w : stop_event (read_back f c w).1 = stop_event w.
Proof.
  unfold read_back. destruct (disk_file w); [|reflexivity].
  destruct f; reflexivity.
Qed.

Lemma disk_loop_stop script : forall w,
  Forall (fun it => Disk.cancel it = false) script ->
  stop_event (Disk.loop script w).2 = stop_event w.
Proof.
  induction script as [|it rest IH]; intros w Hall; cbn [Disk.loop]; [reflexivity|].
  inversion Hall as [|? ? Hc Hrest]; subst. rewrite Hc, observe_false.
  destruct (Token.is_set _); [reflexivity|].
  pose proof (stop_event_write (Disk.write_err it) Disk.write_buffer_len w) as W.
  destruct (write_in_place _ _ _) as [w1 [e|]]; cbn [fst snd] in *; [exact W|].
  pose proof (stop_event_read (Disk.read_err it) Disk.write_buffer_len w1) as R.
  destruct (read_back _ _ _) as [w2 [e|]]; cbn [fst snd] in *; [congruence|].
  rewrite IH by exact Hrest. congruence.
Qed.

Lemma stop_event_iteration ta it w :
  stop_event (Monitor.iteration ta it w).1 = stop_event w.
Proof.
  unfold Monitor.iteration.
  destruct (Monitor.fault it); [destruct (Monitor.after_sleep it); reflexivity|].
  destruct (Monitor.core_temp _ _); reflexivity.
Qed.

Lemma monitor_loop_stop ta script : forall w,
  Forall (fun it => Monitor.cancel it = false) script ->
  stop_event (Monitor.loop ta script w).2 = stop_event w.
Proof.
  induction script as [|it rest IH]; intros w Hall; cbn [Monitor.loop]; [reflexivity|].
  inversion Hall as [|? ? Hc Hrest]; subst. rewrite Hc, observe_false.
  destruct (Token.is_set _); [reflexivity|].
  pose proof (stop_event_iteration ta it w) as I.
  destruct (Monitor.iteration ta it w) as [w1 [e|]]; cbn [fst snd] in *; [exact I|].
  rewrite IH by exact Hrest. exact I.
Qed.

Lemma stream_quiet chunks : forall w,
  forallb negb chunks = true -> stop_event w = false ->
  Network.stream chunks w = (w, false).
Proof.
  induction chunks as [|c rest IH]; intros w Hq Hs; cbn [Network.stream]; [reflexivity|].
  cbn [forallb] in Hq. apply andb_prop in Hq as [Hc Hrest].
  destruct c; [discriminate Hc|]. rewrite observe_false.
  unfold Token.is_set. rewrite Hs. apply IH; assumption.
Qed.

Lemma stop_event_attempt py_int fmt o w :
  forallb negb (Network.chunk_polls o) = true -> stop_event w = false ->
  stop_event (Network.attempt py_int fmt o w).1 = false.
Proof.
  intros Hq Hs. unfold Network.attempt.
  destruct o as [e | code reason cl chunks fin]; [exact Hs|].
  destruct (Network.raise_for_status _ _); [exact Hs|].
  destruct (Network.info_line _ _ _ _) as [l|e]; [|exact Hs].
  rewrite (stream_quiet chunks) by assumption.
  destruct fin; exact Hs.
Qed.

Lemma network_loop_stop py_int fmt script : forall w,
  Forall (fun it => Network.undisturbed it = true) script ->
  stop_event w = false ->
  stop_event (Network.loop py_int fmt script w).2 = false.
Proof.
  induction script as [|it rest IH]; intros w Hall Hs; cbn [Network.loop]; [exact Hs|].
  inversion Hall as [|? ? Hu Hrest]; subst.
  unfold Network.undisturbed in Hu. apply andb_prop in Hu as [Hc Hq].
  apply negb_true_iff in Hc. rewrite Hc, observe_false.
  unfold Token.is_set. rewrite Hs.
  pose proof (stop_event_attempt py_int fmt (Network.outcome it) w Hq Hs) as A.
  destruct (Network.attempt _ _ _ _) as [w1 [[m|m|e]|]]; cbn [fst snd] in *;
    try exact A; apply IH; assumption.
Qed.

(** X2.  No worker but the disk worker ever sets the event, whatever goes
    wrong in it: as long as nobody else sets it, it is after the CPU, GPU,
    cache, scheduler, memory and network workers and after the monitor as
    it was before; and the disk worker sets it only where a creation of the
    file fails, the fatal error being the last line it prints. *)
Theorem only_the_disk_worker_escalates :
  (forall tid script w,
      Forall (fun it => Cpu.cancel it = false) script ->
      stop_event (Cpu.cpu_stress tid script w).2 = stop_event w)
  /\ (forall script w,
      Forall (fun it => Gpu.cancel it = false) script ->
      stop_event (Gpu.gpu_stress script w).2 = stop_event w)
  /\ (forall af script w,
      Forall (fun c => c = false) script ->
      stop_event (Cache.cache_stress af script w).2 = stop_event w)
  /\ (forall script w,
      Forall (fun it => IoBound.cancel it = false) script ->
      stop_event (IoBound.io_bound_stress script w).2 = stop_event w)
  /\ (forall n next script w,
      Forall (fun it => Ram.cancel it = false) script ->
      stop_event (Ram.ram_stress_with n next script w).2 = stop_event w)
  /\ (forall py_int fmt script w,
      Forall (fun it => Network.undisturbed it = true) script ->
      stop_event w = false ->
      stop_event (Network.network_stress py_int fmt script w).2 = false)
  /\ (forall ta script w,
      Forall (fun it => Monitor.cancel it = false) script ->
      stop_event (Monitor.diagnosis_monitor ta script w).2 = stop_event w)
  /\ (forall cr script w,
      Forall (fun it => Disk.cancel it = false) script ->
      stop_event w = false ->
      stop_event (Disk.disk_stress cr script w).2 = true ->
      exists e remains,
        cr = CreateFails e remains
        /\ last (trace (Disk.disk_stress cr script w).2)
           = Some (EPrint false (Text (Disk.fatal_line e)))).
Proof.
  repeat apply conj.
  - intros tid script w Hall. unfold Cpu.cpu_stress.
    match goal with |- context [Cpu.loop script ?w0] =>
      pose proof (cpu_loop_stop script w0 Hall) as L;
      destruct (Cpu.loop script w0) as [[| e |] w1] end;
      cbn [snd] in *; rewrite ?stop_event_guarded_print; exact L.
  - intros script w Hall. unfold Gpu.gpu_stress.
    match goal with |- context [Gpu.loop script ?g ?w0] =>
      pose proof (gpu_loop_stop script g w0 Hall) as L;
      destruct (Gpu.loop script g w0) as [[[| e |] g1] w1] end;
      cbn [snd] in *; rewrite ?stop_event_guarded_print; exact L.
  - intros af script w Hall. unfold Cache.cache_stress.
    destruct af as [e|]; cbn [snd]; [rewrite stop_event_guarded_print; reflexivity|].
    match goal with |- context [Cache.loop ?a ?s script ?st ?w0] =>
      pose proof (cache_loop_stop a s script st w0 Hall) as L;
      destruct (Cache.loop a s script st w0) as [[[| e |] st1] w1] end;
      cbn [snd] in *; rewrite ?stop_event_guarded_print; exact L.
  - intros script w Hall. unfold IoBound.io_bound_stress.
    match goal with |- context [IoBound.loop script ?w0] =>
      pose proof (io_loop_stop script w0 Hall) as L;
      destruct (IoBound.loop script w0) as [[| e |] w1] end;
      cbn [snd] in *; rewrite ?stop_event_guarded_print; exact L.
  - intros n next script w Hall. unfold Ram.ram_stress_with.
    match goal with |- context [Ram.loop n script ?st ?w0] =>
      pose proof (ram_loop_stop n script st w0 Hall) as L;
      destruct (Ram.loop n script st w0) as [[[| e |] st1] w1] end;
      cbn [snd] in *; try destruct e; cbn [snd];
      rewrite ?stop_event_guarded_print; exact L.
  - intros py_int fmt script w Hall Hs. unfold Network.network_stress.
    match goal with |- context [Network.loop py_int fmt script ?w0] =>
      pose proof (network_loop_stop py_int fmt script w0 Hall Hs) as L;
      destruct (Network.loop py_int fmt script w0) as [[| e |] w1] end;
      cbn [snd] in *; rewrite ?stop_event_guarded_print; exact L.
  - intros ta script w Hall. unfold Monitor.diagnosis_monitor.
    match goal with |- context [Monitor.loop ta script ?w0] =>
      pose proof (monitor_loop_stop ta script w0 Hall) as L;
      destruct (Monitor.loop ta script w0) as [[| e |] w1] end;
      cbn [snd] in *; rewrite ?stop_event_guarded_print; exact L.
  - intros cr script w Hall Hs. unfold Disk.disk_stress.
    match goal with |- context [Disk.loop script ?w0] =>
      pose proof (disk_loop_stop script w0 Hall) as L;
      destruct (Disk.loop script w0) as [[| e |] w1] end;
      cbn [snd] in *; change (stop_event (print Disk.start_line w)) with (stop_event w) in L;
      try (intros H; congruence).
    destruct e; cbn [snd];
      try (rewrite stop_event_guarded_print; intros H; congruence).
    destruct cr as [|e remains]; cbn [create_file snd].
    + cbn. intros H. congruence.
    + intros _. exists e, remains. split; [reflexivity|].
      unfold print. cbn [set_stop trace emit]. apply last_snoc.
Qed.

Lemma only_the_disk_worker_escalates_witness :
  Forall (fun it => Disk.cancel it = false) [Disk.quiet; Disk.quiet]
  /\ stop_event w_started_no_file = false
  /\ stop_event w_disk_failed = true
  /\ exists e remains,
       CreateFails denied None = CreateFails e remains
       /\ last (trace w_disk_failed) = Some (EPrint false (Text (Disk.fatal_line e))).
Proof.
  assert (Hall : Forall (fun it => Disk.cancel it = false) [Disk.quiet; Disk.quiet])
    by (repeat constructor).
  split; [exact Hall|]. split; [reflexivity|]. split; [reflexivity|].
  destruct only_the_disk_worker_escalates as (_ & _ & _ & _ & _ & _ & _ & D).
  apply (D (CreateFails denied None) [Disk.quiet; Disk.quiet] w_started_no_file Hall);
    reflexivity.
Defined.

End WhoSetsTheEvent.

(** ** Network worker *)

Section NetworkFacts.

Import Network.

Variable py_int : string -> result Z.
Variable format_1f : float -> string.

Lemma sleeps_snoc t e :
  sleeps (t ++ [e]) = sleeps t ++ match e with ESleep s => [s] | _ => [] end.
Proof. unfold sleeps. rewrite omap_app. destruct e; reflexivity. Qed.

Lemma raise_for_status_refuses code reason :
  (400 <=? code) && (code <? 600) = true ->
  exists msg, raise_for_status code reason = Some (RequestException msg).
Proof.
  intros H. apply andb_prop in H as [Hlo Hhi]. unfold raise_for_status.
  rewrite Hlo. cbn [andb]. destruct (code <? 500) eqn:E5; [eexists; reflexivity|].
  assert (E : (500 <=? code) = true) by (apply Z.leb_le; apply Z.ltb_ge in E5; lia).
  rewrite E, Hhi. eexists; reflexivity.
Qed.

(** One refused request: an error line, five seconds, and on. *)
Lemma refused_step it rest w :
  refused it = true -> stop_event w = false ->
  exists kind msg,
    loop py_int format_1f (it :: rest) w
    = loop py_int format_1f rest (sleep 5 (print (retry_line kind msg) w)).
Proof.
  unfold refused. intros H Hs. apply andb_prop in H as [Hc Ho].
  apply negb_true_iff in Hc. cbn [loop]. rewrite Hc, observe_false.
  unfold Token.is_set. rewrite Hs. unfold attempt.
  destruct (outcome it) as [e | code reason cl chunks fin].
  - destruct e as [m|m|e]; [| |discriminate Ho]; eexists _, _; reflexivity.
  - destruct (raise_for_status_refuses code reason Ho) as [msg ->].
    eexists _, _; reflexivity.
Qed.

Lemma refused_run script : forall w,
  Forall (fun it => refused it = true) script -> stop_event w = false ->
  exists w',
    loop py_int format_1f script w = (Looping, w')
    /\ stop_event w' = false
    /\ sleeps (trace w') = sleeps (trace w) ++ replicate (length script) 5%float
    /\ count is_print (trace w') = (count is_print (trace w) + length script)%nat
    /\ disk_file w' = disk_file w.
Proof.
  induction script as [|it rest IH]; intros w Hall Hs.
  - exists w. cbn [loop length replicate]. rewrite app_nil_r.
    repeat split; auto; lia.
  - inversion Hall as [|? ? Hr Hrest]; subst.
    destruct (refused_step it rest w Hr Hs) as (kind & msg & ->).
    destruct (IH (sleep 5 (print (retry_line kind msg) w)) Hrest Hs)
      as (w' & EL & ES & ESl & EP & EF).
    exists w'. split; [exact EL|]. split; [exact ES|].
    split; [|split].
    + rewrite ESl. unfold sleep, print. rewrite !trace_emit, !sleeps_snoc.
      cbn [length replicate]. rewrite app_nil_r, <- app_assoc. reflexivity.
    + rewrite EP. unfold sleep, print. rewrite !trace_emit, !count_snoc.
      cbn [length is_print]. lia.
    + rewrite EF. reflexivity.
Qed.

(** X3.  Request errors are never fatal to the network worker: through
    any run of requests that raise an SSL or other request exception, or
    that come back with a 4xx or 5xx status, it is still running, has
    printed one line per failure after its start line and has slept five
    seconds after each, and nothing else. *)
Theorem request_errors_are_retried :
  forall (script : list iter) (w : world),
    stop_event w = false ->
    Forall (fun it => refused it = true) script ->
    let r := network_stress py_int format_1f script w in
    r.1 = StillRunning
    /\ stop_event r.2 = false
    /\ sleeps (trace r.2) = sleeps (trace w) ++ replicate (length script) 5%float
    /\ count is_print (trace r.2) = (count is_print (trace w) + 1 + length script)%nat.
Proof.
  intros script w Hs Hall r. subst r. unfold network_stress.
  match goal with |- context [loop py_int format_1f script ?w0] =>
    destruct (refused_run script w0 Hall Hs) as (w' & -> & ES & ESl & EP & _)
  end.
  cbn [fst snd]. split; [reflexivity|]. split; [exact ES|].
  rewrite ESl, EP. unfold print. rewrite trace_emit, sleeps_snoc, count_snoc.
  cbn [is_print]. rewrite app_nil_r. split; [reflexivity | lia].
Qed.

(** X4.  A content-length header that [int] rejects, or whose figure
    is too large for a float, is fatal to the network worker: after any
    run of refused requests, a response with a good status and such a
    header makes the worker print the critical error line and return; the
    event is not set and what was scripted to follow is not run. *)
Theorem bad_content_length_is_fatal :
  forall (pre rest : list iter) (w : world)
         (code : Z) (reason header : string) (chunks : list bool)
         (fin : option net_exn) (e : exn),
    stop_event w = false ->
    Forall (fun it => refused it = true) pre ->
    raise_for_status code reason = None ->
    info_line py_int format_1f code (Some header) = Raise e ->
    let r := network_stress py_int format_1f
               (pre ++ Iter false (Response code reason (Some header) chunks fin) :: rest) w in
    r.1 = Returned
    /\ stop_event r.2 = false
    /\ last (trace r.2) = Some (EPrint false (Text (critical_line e)))
    /\ sleeps (trace r.2) = sleeps (trace w) ++ replicate (length pre) 5%float.
Proof.
  intros pre rest w code reason header chunks fin e Hs Hall Hst Hinfo r. subst r.
  unfold network_stress.
  match goal with |- context [loop py_int format_1f _ ?w0] =>
    destruct (refused_run pre w0 Hall Hs) as (w' & EL & ES & ESl & _)
  end.
  rewrite (network_loop_app _ _ _ _ _ _ EL).
  cbn [loop cancel outcome]. rewrite observe_false. unfold Token.is_set. rewrite ES.
  unfold attempt. rewrite Hst, Hinfo. cbn [fst snd]. rewrite ES.
  split; [reflexivity|]. split; [exact ES|].
  unfold print in *. rewrite trace_emit, sleeps_snoc in ESl.
  rewrite !trace_emit, last_snoc, !sleeps_snoc, ESl, !app_nil_r.
  split; reflexivity.
Qed.

Lemma benign_attempt it w :
  benign py_int format_1f it = true ->
  forall e, (attempt py_int format_1f (outcome it) w).2 <> Some (Unexpected e).
Proof.
  unfold benign, attempt.
  destruct (outcome it) as [x | code reason cl chunks fin]; intros H e.
  - destruct x; [discriminate | discriminate | discriminate H].
  - destruct (raise_for_status code reason) as [x|] eqn:R.
    + unfold raise_for_status in R.
      destruct (_ && _) in R; [injection R as <-; discriminate|].
      destruct (_ && _) in R; [injection R as <-; discriminate | discriminate R].
    + destruct (info_line _ _ _ _) as [l|x]; [|discriminate H].
      destruct (stream chunks _) as [w1 [|]]; cbn [snd]; [discriminate|].
      destruct fin as [[m|m|x]|]; cbn [snd]; first [discriminate H | discriminate].
Qed.

Lemma benign_loop script : forall w,
  Forall (fun it => benign py_int format_1f it = true) script ->
  forall e, (loop py_int format_1f script w).1 <> Raised e.
Proof.
  induction script as [|it rest IH]; intros w Hall e; cbn [loop]; [discriminate|].
  inversion Hall as [|? ? Hb Hrest]; subst.
  destruct (Token.is_set _); [discriminate|].
  pose proof (benign_attempt it (observe (cancel it) w) Hb) as A.
  destruct (attempt _ _ _ _) as [w1 [[m|m|x]|]]; cbn [snd] in A;
    try (apply IH; exact Hrest).
  exfalso. apply (A x). reflexivity.
Qed.

Lemma loop_cancelled_is_set script : forall w w',
  loop py_int format_1f script w = (Cancelled, w') -> stop_event w' = true.
Proof.
  induction script as [|it rest IH]; intros w w'; cbn [loop]; [discriminate|].
  destruct (Token.is_set _) eqn:E; [intros [= <-]; exact E|].
  destruct (attempt _ _ _ _) as [w1 [[m|m|x]|]]; try apply IH. discriminate.
Qed.

(** X5.  As long as every header is one [int] accepts and nothing but
    request exceptions is raised, the network worker ends for one reason
    only: if it has returned, the event is set. *)
Theorem network_stops_only_on_cancellation :
  forall (script : list iter) (w : world),
    Forall (fun it => benign py_int format_1f it = true) script ->
    (network_stress py_int format_1f script w).1 = Returned ->
    stop_event (network_stress py_int format_1f script w).2 = true.
Proof.
  intros script w Hall. unfold network_stress.
  match goal with |- context [loop py_int format_1f script ?w0] =>
    pose proof (benign_loop script w0 Hall) as NR;
    pose proof (loop_cancelled_is_set script w0) as C;
    destruct (loop py_int format_1f script w0) as [[| e |] w1]
  end; cbn [fst snd] in *.
  - intros _. apply (C w1). reflexivity.
  - exfalso. apply (NR e). reflexivity.
  - discriminate.
Qed.

Lemma stream_break quiet more : forall w,
  forallb negb quiet = true -> stop_event w = false ->
  stream (quiet ++ true :: more) w = (set_stop w, true).
Proof.
  induction quiet as [|c rest IH]; intros w Hq Hs; cbn [stream app].
  - reflexivity.
  - cbn [forallb] in Hq. apply andb_prop in Hq as [Hc Hrest].
    destruct c; [discriminate Hc|]. rewrite observe_false.
    unfold Token.is_set. rewrite Hs. apply IH; assumption.
Qed.

(** X6.  When the event is found set while a response streams, the
    download stops at that chunk: the chunks after it are not read, an
    exception that would have ended the stream is not met, and the worker
    sleeps its one second and returns at its next poll with no error
    line. *)
Theorem cancellation_while_streaming :
  forall (rest : list iter) (w : world) (code : Z) (reason : string)
         (cl : option string) (quiet more : list bool) (fin : option net_exn)
         (l : string) (next : iter),
    stop_event w = false ->
    raise_for_status code reason = None ->
    info_line py_int format_1f code cl = Ok l ->
    forallb negb quiet = true ->
    network_stress py_int format_1f
      (Iter false (Response code reason cl (quiet ++ true :: more) fin) :: next :: rest) w
    = (Returned,
       sleep 1 (set_stop (print l
         (print ("[NETWORK/Wi-Fi Thread]: Starting continuous download from: "
                 +:+ NETWORK_URL) w)))).
Proof.
  intros rest w code reason cl quiet more fin l next Hs Hst Hinfo Hq.
  unfold network_stress. cbn [loop cancel outcome].
  rewrite observe_false. unfold Token.is_set at 1.
  change (stop_event (print _ w)) with (stop_event w). rewrite Hs.
  unfold attempt. rewrite Hst, Hinfo.
  rewrite (stream_break quiet more) by assumption.
  cbn [loop]. destruct (cancel next); reflexivity.
Qed.

End NetworkFacts.

Lemma request_errors_are_retried_witness :
  stop_event w_init = false
  /\ Forall (fun it => Network.refused it = true) two_refusals
  /\ (Network.network_stress sample_int sample_format two_refusals w_init).1 = StillRunning
  /\ sleeps (trace (Network.network_stress sample_int sample_format two_refusals w_init).2)
     = [5; 5]%float.
Proof.
  assert (Hall : Forall (fun it => Network.refused it = true) two_refusals)
    by (repeat constructor).
  split; [reflexivity|]. split; [exact Hall|].
  destruct (request_errors_are_retried sample_int sample_format two_refusals w_init
              eq_refl Hall) as (R & _ & S & _).
  split; [exact R | exact S].
Defined.

Lemma bad_content_length_is_fatal_witness :
  stop_event w_init = false
  /\ Forall (fun it => Network.refused it = true) two_refusals
  /\ Network.raise_for_status 200 "OK" = None
  /\ Network.info_line sample_int sample_format 200 (Some "12 MB")
     = Raise (ValueError "invalid literal for int() with base 10: '12 MB'")
  /\ (Network.network_stress sample_int sample_format
        (two_refusals
         ++ Network.Iter false (Network.Response 200 "OK" (Some "12 MB") [false] None)
            :: two_refusals) w_init).1 = Returned.
Proof.
  assert (Hall : Forall (fun it => Network.refused it = true) two_refusals)
    by (repeat constructor).
  split; [reflexivity|]. split; [exact Hall|].
  split; [reflexivity|]. split; [reflexivity|].
  apply (bad_content_length_is_fatal sample_int sample_format two_refusals two_refusals
           w_init 200 "OK" "12 MB" [false] None _ eq_refl Hall eq_refl eq_refl).
Defined.

Lemma network_stops_only_on_cancellation_witness :
  Forall (fun it => Network.benign sample_int sample_format it = true)
         (two_refusals ++ [Network.Iter true (Network.GetRaises (Network.SSLError "late"))])
  /\ stop_event
       (Network.network_stress sample_int sample_format
          (two_refusals ++ [Network.Iter true (Network.GetRaises (Network.SSLError "late"))])
          w_init).2 = true.
Proof.
  assert (Hall : Forall (fun it => Network.benign sample_int sample_format it = true)
            (two_refusals ++ [Network.Iter true (Network.GetRaises (Network.SSLError "late"))]))
    by (repeat constructor).
  split; [exact Hall|].
  apply (network_stops_only_on_cancellation sample_int sample_format _ w_init Hall).
  reflexivity.
Defined.

Lemma cancellation_while_streaming_witness :
  stop_event w_init = false
  /\ Network.raise_for_status 200 "OK" = None
  /\ forallb negb [false; false] = true
  /\ sleeps (trace (Network.network_stress sample_int sample_format
        [Network.Iter false
           (Network.Response 200 "OK" (Some "104857600")
              ([false; false] ++ true :: [false])
              (Some (Network.Unexpected (OtherException "boom"))));
         Network.Iter false (Network.GetRaises (Network.SSLError "never asked"))]
        w_init).2) = [1]%float.
Proof.
  split; [reflexivity|]. split; [reflexivity|]. split; [reflexivity|].
  rewrite (cancellation_while_streaming sample_int sample_format [] w_init 200 "OK"
             (Some "104857600") [false; false] [false]
             (Some (Network.Unexpected (OtherException "boom")))
             _ _ eq_refl eq_refl eq_refl eq_refl).
  reflexivity.
Defined.

(** ** DiagnosisMonitor: reports and temperatures *)

Section MonitorReports.

Import Monitor.

Lemma reports_snoc t e :
  reports (t ++ [e]) =
  reports t ++ match e with EPrint _ (Diagnosis r) => [r] | _ => [] end.
Proof.
  unfold reports. rewrite omap_app.
  destruct e as [b [s|r]| | | | | |]; reflexivity.
Qed.

Lemma healthy_inv ta it :
  healthy ta it = true ->
  cancel it = false /\ fault it = None
  /\ core_temp ta (temps it) = Ok (reported_temp ta it).
Proof.
  unfold healthy, reported_temp. intros H.
  apply andb_prop in H as [H Ht]. apply andb_prop in H as [Hc Hf].
  apply negb_true_iff in Hc. apply bool_decide_eq_true in Hf.
  destruct (core_temp ta (temps it)); [auto | discriminate Ht].
Qed.

Lemma healthy_run ta script : forall w,
  Forall (fun it => healthy ta it = true) script -> stop_event w = false ->
  exists w',
    loop ta script w = (Looping, w')
    /\ stop_event w' = false
    /\ reports (trace w')
       = reports (trace w) ++ ((fun it => make_report it (reported_temp ta it)) <$> script)
    /\ sleeps (trace w') = sleeps (trace w) ++ replicate (length script) MONITOR_INTERVAL
    /\ locked w' = (locked w + length script)%nat
    /\ count is_print (trace w') = (count is_print (trace w) + length script)%nat.
Proof.
  induction script as [|it rest IH]; intros w Hall Hs.
  - exists w. cbn [loop length replicate fmap list_fmap]. rewrite !app_nil_r.
    repeat split; auto; lia.
  - inversion Hall as [|? ? Hh Hrest]; subst.
    destruct (healthy_inv ta it Hh) as (Hc & Hf & Ht).
    cbn [loop]. rewrite Hc, observe_false. unfold Token.is_set. rewrite Hs.
    unfold iteration. rewrite Hf, Ht.
    match goal with |- context [loop ta rest ?w1] =>
      destruct (IH w1 Hrest Hs) as (w' & EL & ES & ER & ESl & ELk & EP)
    end.
    exists w'. split; [exact EL|]. split; [exact ES|].
    unfold locked in *. unfold print_locked, sleep in *.
    rewrite !trace_emit in *.
    rewrite ER, ESl, ELk, EP, !reports_snoc, !sleeps_snoc, !count_snoc.
    cbn [length replicate fmap list_fmap is_locked_print is_print].
    rewrite !app_nil_r, <- !app_assoc. repeat split; lia.
Qed.

(** X7.  One report per interval: through any run of intervals in which
    nothing interferes the monitor is still running and has, for each
    interval in turn, slept MONITOR_INTERVAL and then printed under the
    lock one line, whose figures are those of that interval; apart from
    its start line it has printed nothing else. *)
Theorem one_report_per_interval :
  forall (ta : bool) (script : list iter) (w : world),
    stop_event w = false ->
    Forall (fun it => healthy ta it = true) script ->
    let r := diagnosis_monitor ta script w in
    r.1 = StillRunning
    /\ reports (trace r.2)
       = reports (trace w) ++ ((fun it => make_report it (reported_temp ta it)) <$> script)
    /\ sleeps (trace r.2) = sleeps (trace w) ++ replicate (length script) MONITOR_INTERVAL
    /\ locked r.2 = (locked w + length script)%nat
    /\ count is_print (trace r.2) = (count is_print (trace w) + 1 + length script)%nat.
Proof.
  intros ta script w Hs Hall r. subst r. unfold diagnosis_monitor.
  match goal with |- context [loop ta script ?w0] =>
    destruct (healthy_run ta script w0 Hall Hs) as (w' & -> & _ & ER & ESl & ELk & EP)
  end.
  cbn [fst snd]. unfold locked, print in *. rewrite trace_emit in *.
  rewrite ER, ESl, ELk, EP, reports_snoc, sleeps_snoc, !count_snoc.
  cbn [is_locked_print is_print]. rewrite !app_nil_r. repeat split; lia.
Qed.

Lemma one_report_per_interval_witness :
  stop_event w_init = false
  /\ Forall (fun it => healthy false it = true) [interval_example; interval_example]
  /\ locked (diagnosis_monitor false [interval_example; interval_example] w_init).2 = 2%nat.
Proof.
  assert (Hall : Forall (fun it => healthy false it = true)
                        [interval_example; interval_example]) by (repeat constructor).
  split; [reflexivity|]. split; [exact Hall|].
  destruct (one_report_per_interval false [interval_example; interval_example] w_init
              eq_refl Hall) as (_ & _ & _ & L & _).
  exact L.
Defined.

Lemma py_max_member xs m : py_max xs = Ok m -> m ∈ xs.
Proof.
  destruct xs as [|x rest]; [discriminate|]. cbn [py_max]. intros [= <-].
  revert x. induction rest as [|y rest IH]; intros x; cbn [fold_left].
  - apply elem_of_cons. left. reflexivity.
  - destruct (x <? y)%float.
    + apply elem_of_cons. right. apply IH.
    + specialize (IH x). apply elem_of_cons in IH as [-> | IH].
      * apply elem_of_cons. left. reflexivity.
      * apply elem_of_cons. right. apply elem_of_cons. right. exact IH.
Qed.

Lemma py_max_empty xs e : py_max xs = Raise e -> xs = [].
Proof. destruct xs; [reflexivity | discriminate]. Qed.

(** X8.  Which temperature is reported.  A temperature is reported only
    when sensors were found at start-up, and it is then one of the
    readings of the "coretemp" group if that group exists, otherwise one
    of the readings of "cpu_thermal"; no temperature is reported when
    sensors were not found or when neither group exists, whatever other
    groups do; and the lookup raises exactly when the group it reads
    lists no sensor. *)
Theorem temperature_choice :
  forall (ta : bool) (t : gmap string (list float)),
    match core_temp ta t with
    | Ok (Some m) =>
        ta = true
        /\ exists readings,
             m ∈ readings
             /\ (t !! "coretemp" = Some readings
                 \/ (t !! "coretemp" = None /\ t !! "cpu_thermal" = Some readings))
    | Ok None =>
        ta = false \/ (t !! "coretemp" = None /\ t !! "cpu_thermal" = None)
    | Raise e =>
        ta = true
        /\ (t !! "coretemp" = Some []
            \/ (t !! "coretemp" = None /\ t !! "cpu_thermal" = Some []))
    end.
Proof.
  intros ta t. unfold core_temp.
  destruct ta; [|left; reflexivity].
  destruct (t !! "coretemp") as [rs|] eqn:Ec.
  - destruct (py_max rs) as [m|e] eqn:Em; cbn.
    + split; [reflexivity|]. exists rs. split; [apply py_max_member, Em | left; reflexivity].
    + split; [reflexivity|]. left. f_equal. apply (py_max_empty _ _ Em).
  - destruct (t !! "cpu_thermal") as [rs|] eqn:Et.
    + destruct (py_max rs) as [m|e] eqn:Em; cbn.
      * split; [reflexivity|]. exists rs. split; [apply py_max_member, Em | right; auto].
      * split; [reflexivity|]. right. split; [reflexivity|]. f_equal.
        apply (py_max_empty _ _ Em).
    + right. auto.
Qed.

(** X9.  A sensor group that lists no sensor ends the monitor: with
    sensors found at start-up and an empty "coretemp" group, the first
    interval is slept through, no report is printed for it, the monitor
    logs the error of [max] and returns, even where "cpu_thermal" has
    readings; the event is left as it was. *)
Theorem empty_sensor_group_ends_monitor :
  forall (pre rest : list iter) (it : iter) (w : world),
    stop_event w = false ->
    Forall (fun it => healthy true it = true) pre ->
    cancel it = false -> fault it = None ->
    temps it !! "coretemp" = Some [] ->
    let r := diagnosis_monitor true (pre ++ it :: rest) w in
    r.1 = Returned
    /\ stop_event r.2 = false
    /\ length (reports (trace r.2)) = (length (reports (trace w)) + length pre)%nat
    /\ sleeps (trace r.2)
       = sleeps (trace w) ++ replicate (S (length pre)) MONITOR_INTERVAL
    /\ last (trace r.2)
       = Some (EPrint false (Text
           "[DIAGNOSIS Thread ERROR]: Monitoring failed: max() arg is an empty sequence")).
Proof.
  intros pre rest it w Hs Hall Hc Hf Ht r. subst r. unfold diagnosis_monitor.
  match goal with |- context [loop true _ ?w0] =>
    destruct (healthy_run true pre w0 Hall Hs) as (w' & EL & ES & ER & ESl & _)
  end.
  rewrite (monitor_loop_app _ _ _ _ _ EL). cbn [loop].
  rewrite Hc, observe_false. unfold Token.is_set. rewrite ES.
  unfold iteration, core_temp. rewrite Hf, Ht. cbn [py_max mbind result_bind fst snd].
  change (stop_event (sleep MONITOR_INTERVAL w')) with (stop_event w'). rewrite ES.
  unfold print, sleep in *. rewrite !trace_emit in *.
  rewrite last_snoc, !reports_snoc, !sleeps_snoc, ER, ESl, reports_snoc, sleeps_snoc.
  rewrite !app_nil_r, !length_app, length_fmap.
  split; [reflexivity|]. split; [exact ES|]. split; [reflexivity|].
  split; [|reflexivity].
  rewrite <- app_assoc. f_equal.
  change [MONITOR_INTERVAL] with (replicate 1 MONITOR_INTERVAL).
  rewrite <- replicate_add. f_equal. lia.
Qed.

Lemma empty_sensor_group_ends_monitor_witness :
  stop_event w_init = false
  /\ Forall (fun it => healthy true it = true) [interval_example]
  /\ cancel interval_no_sensor = false /\ fault interval_no_sensor = None
  /\ temps interval_no_sensor !! "coretemp" = Some []
  /\ temps interval_no_sensor !! "cpu_thermal" = Some [48.5%float]
  /\ (diagnosis_monitor true ([interval_example] ++ interval_no_sensor :: [interval_example])
        w_init).1 = Returned.
Proof.
  assert (Hall : Forall (fun it => healthy true it = true) [interval_example])
    by (repeat constructor).
  split; [reflexivity|]. split; [exact Hall|]. split; [reflexivity|].
  split; [reflexivity|]. split; [reflexivity|]. split; [reflexivity|].
  apply (empty_sensor_group_ends_monitor [interval_example] [interval_example]
           interval_no_sensor w_init eq_refl Hall eq_refl eq_refl eq_refl).
Defined.

(** A call to psutil that raises after the sleep: the interval has been
    waited for, no report is printed, the error line is the last one. *)
Example fault_after_the_sleep :
  trace (Monitor.diagnosis_monitor false [interval_failing_late] w_init).2
  = [EPrint false (Text (nl +:+ "[DIAGNOSIS Thread]: Starting system health monitor..."));
     ESleep 5;
     EPrint false (Text "[DIAGNOSIS Thread ERROR]: Monitoring failed: psutil.AccessDenied")]
  /\ trace (Monitor.diagnosis_monitor false [interval_failing] w_init).2
     = [EPrint false (Text (nl +:+ "[DIAGNOSIS Thread]: Starting system health monitor..."));
        EPrint false (Text "[DIAGNOSIS Thread ERROR]: Monitoring failed: psutil.AccessDenied")].
Proof. split; vm_compute; reflexivity. Qed.

End MonitorReports.

(** ** Start-up, the waiting loop and Shutdown *)

Section OrchestratorFacts.

Import Orchestrator.

Lemma start_executor cpu cr w :
  executor (start cpu cr w)
  = Some (Pool (default 4 cpu + 7) (worker_names (default 4 cpu)) false).
Proof. reflexivity. Qed.

Lemma start_stop_event cpu cr w : stop_event (start cpu cr w) = stop_event w.
Proof.
  unfold start. cbn [stop_event print emit set_executor].
  destruct (disk_file _); [reflexivity|].
  destruct cr; reflexivity.
Qed.

Lemma worker_names_length n :
  0 <= n -> Z.of_nat (length (worker_names n)) = n + 7.
Proof.
  intros Hn. unfold worker_names.
  rewrite length_app, length_fmap, length_seqZ. cbn [length]. lia.
Qed.

(** X10.  The pool has a thread for every worker: whatever number of
    cores psutil reports, or 4 when it reports none, [main] creates a pool
    of that number plus 7 threads and submits exactly that many tasks, the
    seven other workers and then one CPU worker per core, numbered from 0;
    the pool is open and the event untouched. *)
Theorem pool_holds_every_worker :
  forall (cpu : option Z) (cr : create_env) (w : world),
    0 <= default 4 cpu ->
    exists p,
      executor (start cpu cr w) = Some p
      /\ max_workers p = default 4 cpu + 7
      /\ Z.of_nat (length (submitted p)) = max_workers p
      /\ take 7 (submitted p)
         = ["ram_stress"; "disk_stress"; "network_stress"; "gpu_stress";
            "cache_stress"; "io_bound_stress"; "diagnosis_monitor"]
      /\ shut_down p = false
      /\ stop_event (start cpu cr w) = stop_event w
      /\ drop 7 (submitted p)
         = (fun i => "cpu_stress(" +:+ pretty i +:+ ")") <$> seqZ 0 (default 4 cpu).
Proof.
  intros cpu cr w Hn. eexists. split; [apply start_executor|].
  cbn [max_workers submitted shut_down].
  split; [reflexivity|]. split; [apply worker_names_length, Hn|].
  split; [reflexivity|]. split; [reflexivity|].
  split; [apply start_stop_event | reflexivity].
Qed.

Lemma pool_holds_every_worker_witness :
  0 <= default 4 (None : option Z)
  /\ exists p, executor (start None CreateOk w_init) = Some p /\ max_workers p = 11.
Proof.
  split; [discriminate|].
  destruct (pool_holds_every_worker None CreateOk w_init) as (p & E & M & _).
  { discriminate. }
  exists p. split; [exact E | exact M].
Defined.

(** X11.  Start-up and the file.  A file that is already there is left
    as it is, nothing is created; a missing file is created with the very
    size the disk worker creates it with; and when the creation fails,
    [main] logs the error and goes on to start the pool all the same,
    leaving on disk what the failure left. *)
Theorem startup_file :
  forall (cpu : option Z) (cr : create_env) (w : world),
    let w' := start cpu cr w in
    match disk_file w, cr with
    | Some n, _ =>
        disk_file w' = Some n
        /\ count is_file_create (trace w') = count is_file_create (trace w)
        /\ count is_print (trace w') = (count is_print (trace w) + 6)%nat
    | None, CreateOk =>
        disk_file w' = Some Disk.initial_file_len
        /\ count is_file_create (trace w') = (count is_file_create (trace w) + 1)%nat
        /\ count is_print (trace w') = (count is_print (trace w) + 6)%nat
    | None, CreateFails e remains =>
        disk_file w' = remains
        /\ executor w' <> None
        /\ count is_file_create (trace w') = count is_file_create (trace w)
        /\ count is_print (trace w') = (count is_print (trace w) + 7)%nat
    end.
Proof.
  intros cpu cr w w'. subst w'. unfold start, print.
  destruct (disk_file w) as [n|] eqn:E.
  - cbn [disk_file trace emit set_executor]. rewrite E.
    cbn [disk_file trace emit set_executor]. rewrite !count_snoc.
    cbn [is_print is_file_create]. split; [exact E|]. split; lia.
  - cbn [disk_file emit]. rewrite E.
    destruct cr as [|e remains];
      cbn [create_file disk_file trace emit set_executor set_file executor];
      rewrite !count_snoc; cbn [is_print is_file_create].
    + split; [reflexivity|]. split; lia.
    + split; [reflexivity|]. split; [discriminate|]. split; lia.
Qed.

Lemma wait_quiet k rest : forall w,
  stop_event w = false ->
  wait (replicate k Quiet ++ rest) w = wait rest (waited k w).
Proof.
  induction k as [|k IH]; intros w Hs; [reflexivity|].
  cbn [replicate app wait waited]. unfold Token.is_set. rewrite Hs.
  apply IH. exact Hs.
Qed.

Lemma waited_fields k : forall w,
  stop_event (waited k w) = stop_event w
  /\ executor (waited k w) = executor w
  /\ disk_file (waited k w) = disk_file w
  /\ sleeps (trace (waited k w)) = sleeps (trace w) ++ replicate k 1%float
  /\ count is_pool_shutdown (trace (waited k w)) = count is_pool_shutdown (trace w).
Proof.
  induction k as [|k IH]; intros w; cbn [waited replicate].
  - rewrite app_nil_r. auto.
  - destruct (IH (sleep 1 w)) as (H1 & H2 & H3 & H4 & H5).
    rewrite H1, H2, H3, H4, H5. unfold sleep.
    rewrite trace_emit, sleeps_snoc, count_snoc, <- app_assoc.
    cbn [is_pool_shutdown]. repeat split. lia.
Qed.

Lemma left_over_quiet k rest : forall w,
  stop_event w = false ->
  left_over (replicate k Quiet ++ rest) w = left_over rest (waited k w).
Proof.
  induction k as [|k IH]; intros w Hs; [reflexivity|].
  cbn [replicate app left_over waited]. unfold Token.is_set. rewrite Hs.
  apply IH. exact Hs.
Qed.

(** While nobody sets the event the join of a pool goes on. *)
Lemma join_quiet m rest p w :
  stop_event w = false -> executor w = Some p ->
  join_pool (replicate m Quiet ++ rest) w = join_pool rest w.
Proof.
  intros Hs Hp. induction m as [|m IH]; [reflexivity|].
  cbn [replicate app join_pool]. unfold Token.is_set. rewrite Hs, Hp. exact IH.
Qed.

(** A Ctrl+C ends the waiting loop; what follows is the join of the pool
    on the turns that are left, and [cleanup] if the join ends. *)
Lemma wait_interrupt k later rf w :
  stop_event w = false ->
  wait_and_exit (replicate k Quiet ++ KeyboardInterrupt :: later) rf w
  = match join_pool later (waited k w) with
    | (Returned, w2) => (Returned, cleanup rf w2)
    | (StillRunning, w2) => (StillRunning, w2)
    end.
Proof.
  intros Hs. unfold wait_and_exit.
  rewrite wait_quiet, left_over_quiet by exact Hs.
  destruct (waited_fields k w) as (I1 & _).
  cbn [wait left_over]. unfold Token.is_set. rewrite I1, Hs. reflexivity.
Qed.

(** The case analysis of [cleanup] on the pool, the file and the removal,
    once the event is known not to be set. *)
Ltac cleanup_unset rf w Hs :=
  unfold cleanup, Token.is_set, shutdown;
  rewrite Hs; unfold print, sleep;
  cbn [executor disk_file stop_event trace emit set_stop set_executor set_file];
  let Ex := fresh "Ex" in
  let Ef := fresh "Ef" in
  destruct (executor w) eqn:Ex;
    cbn [executor disk_file stop_event trace emit set_stop set_executor set_file fmap option_fmap option_map];
    rewrite ?Ex;
    cbn [executor disk_file stop_event trace emit set_stop set_executor set_file fmap option_fmap option_map];
    destruct (disk_file w) eqn:Ef;
    cbn [executor disk_file stop_event trace emit set_stop set_executor set_file fmap option_fmap option_map];
    destruct rf;
    cbn [executor disk_file stop_event trace emit set_stop set_executor set_file fmap option_fmap option_map];
    rewrite ?Ex, ?Ef, ?last_snoc, ?count_snoc, ?sleeps_snoc;
    cbn [is_pool_shutdown is_file_remove is_print app fmap option_fmap option_map];
    rewrite ?app_nil_r, <- ?app_assoc.

(** [cleanup] reached with the event not set and a removal that works. *)
Lemma cleanup_removes w :
  stop_event w = false ->
  stop_event (cleanup None w) = true
  /\ shut_down <$> executor (cleanup None w) = (fun _ => true) <$> executor w
  /\ count is_pool_shutdown (trace (cleanup None w))
     = (count is_pool_shutdown (trace w)
        + match executor w with Some _ => 1 | None => 0 end)%nat
  /\ sleeps (trace (cleanup None w)) = sleeps (trace w) ++ [2%float]
  /\ disk_file (cleanup None w) = None
  /\ last (trace (cleanup None w)) = Some (EPrint false (Text "[INFO]: Stress test complete.")).
Proof.
  intros Hs. set (rf := @None exn). assert (Hrf : rf = None) by reflexivity.
  clearbody rf. cleanup_unset rf w Hs; try discriminate Hrf; repeat split; lia.
Qed.

(** X12.  Shutdown is best effort.  Called with the event not set,
    [cleanup] sets it, asks the pool to shut down if there is one, sleeps
    2 seconds once, removes the file if there is one, and ends on its
    completion line in every case: when the removal raises, the file
    stays, a warning is logged, and the routine still completes. *)
Theorem cleanup_best_effort :
  forall (rf : option exn) (w : world),
    stop_event w = false ->
    let w' := cleanup rf w in
    stop_event w' = true
    /\ shut_down <$> executor w' = (fun _ => true) <$> executor w
    /\ count is_pool_shutdown (trace w')
       = (count is_pool_shutdown (trace w)
          + match executor w with Some _ => 1 | None => 0 end)%nat
    /\ sleeps (trace w') = sleeps (trace w) ++ [2%float]
    /\ disk_file w' = match rf with None => None | Some _ => disk_file w end
    /\ count is_file_remove (trace w')
       = (count is_file_remove (trace w)
          + match disk_file w, rf with Some _, None => 1 | _, _ => 0 end)%nat
    /\ count is_print (trace w')
       = (count is_print (trace w) + 2
          + match executor w with Some _ => 1 | None => 0 end
          + match disk_file w with Some _ => 1 | None => 0 end)%nat
    /\ last (trace w') = Some (EPrint false (Text "[INFO]: Stress test complete.")).
Proof.
  intros rf w Hs w'. subst w'. cleanup_unset rf w Hs; repeat split; lia.
Qed.

Lemma cleanup_best_effort_witness :
  stop_event w_started = false
  /\ disk_file (cleanup (Some denied) w_started) = Some Disk.initial_file_len
  /\ last (trace (cleanup (Some denied) w_started))
     = Some (EPrint false (Text "[INFO]: Stress test complete.")).
Proof.
  split; [reflexivity|].
  destruct (cleanup_best_effort (Some denied) w_started eq_refl)
    as (_ & _ & _ & _ & F & _ & _ & L).
  split; [exact F | exact L].
Defined.

(** X13.  From Ctrl+C to the end of the process.  However many seconds
    [main] has waited, whatever cores were found and whether or not the
    file could be created at start-up, a Ctrl+C with the event not set ends
    [main] but not the process: the interpreter joins the pool before it
    runs [cleanup], no worker ends while the event is not set, and so, as
    long as nothing else happens, nothing of Shutdown has happened: the
    event is not set, the pool is not shut down, there is no grace wait and
    the file is as start-up left it.  A second Ctrl+C interrupts the join,
    and [cleanup] then runs in full: the event is set, the pool is shut
    down, no file is left on disk, and the last line printed is the
    completion line. *)
Theorem shutdown_needs_second_interrupt :
  forall (cpu : option Z) (cr : create_env) (k m : nat) (later : list tick) (w : world),
    stop_event w = false ->
    let w0 := start cpu cr w in
    let once :=
      main cpu cr (replicate k Quiet ++ KeyboardInterrupt :: replicate m Quiet) None w in
    let twice :=
      main cpu cr (replicate k Quiet ++ KeyboardInterrupt
                     :: replicate m Quiet ++ KeyboardInterrupt :: later) None w in
    once = (StillRunning, waited k w0)
    /\ stop_event once.2 = false
    /\ shut_down <$> executor once.2 = Some false
    /\ disk_file once.2 = disk_file w0
    /\ count is_pool_shutdown (trace once.2) = count is_pool_shutdown (trace w0)
    /\ sleeps (trace once.2) = sleeps (trace w0) ++ replicate k 1%float
    /\ twice.1 = Returned
    /\ stop_event twice.2 = true
    /\ shut_down <$> executor twice.2 = Some true
    /\ disk_file twice.2 = None
    /\ count is_pool_shutdown (trace twice.2)
       = (count is_pool_shutdown (trace w0) + 1)%nat
    /\ sleeps (trace twice.2) = sleeps (trace w0) ++ replicate k 1%float ++ [2%float]
    /\ last (trace twice.2) = Some (EPrint false (Text "[INFO]: Stress test complete.")).
Proof.
  intros cpu cr k m later w Hs w0 once twice. subst once twice. unfold main.
  fold w0.
  assert (Hs0 : stop_event w0 = false) by (subst w0; rewrite start_stop_event; exact Hs).
  destruct (waited_fields k w0) as (I1 & I2 & I3 & I4 & I5).
  assert (Hs1 : stop_event (waited k w0) = false) by congruence.
  assert (Hp : exists p, executor (waited k w0) = Some p /\ shut_down p = false).
  { rewrite I2. subst w0. rewrite start_executor. eexists. split; reflexivity. }
  destruct Hp as (p & Hp & Hsd).
  rewrite !wait_interrupt by exact Hs0.
  assert (E1 : join_pool (replicate m Quiet) (waited k w0)
               = (StillRunning, waited k w0)).
  { rewrite <- (app_nil_r (replicate m Quiet)), (join_quiet m _ p) by assumption.
    cbn [join_pool]. unfold Token.is_set. rewrite Hp, Hs1. reflexivity. }
  assert (E2 : join_pool (replicate m Quiet ++ KeyboardInterrupt :: later) (waited k w0)
               = (Returned, waited k w0)).
  { rewrite (join_quiet m _ p) by assumption.
    cbn [join_pool]. unfold Token.is_set. rewrite Hp, Hs1. reflexivity. }
  rewrite E1, E2. cbn [fst snd].
  destruct (cleanup_removes (waited k w0) Hs1) as (C1 & C2 & C3 & C4 & C5 & C8).
  rewrite Hp in C2, C3. rewrite C3, C4, I4, I5, <- app_assoc.
  split; [reflexivity|]. split; [exact Hs1|].
  split; [rewrite Hp; cbn; rewrite Hsd; reflexivity|].
  split; [exact I3|]. split; [reflexivity|]. split; [reflexivity|].
  split; [reflexivity|]. split; [exact C1|]. split; [exact C2|]. split; [exact C5|].
  split; [lia|]. split; [reflexivity | exact C8].
Qed.

Lemma shutdown_needs_second_interrupt_witness :
  stop_event w_init = false
  /\ (main (Some 4) (CreateFails io_error (Some 4096))
           (replicate 3 Quiet ++ KeyboardInterrupt :: replicate 2 Quiet) None w_init).1
     = StillRunning
  /\ disk_file
       (main (Some 4) (CreateFails io_error (Some 4096))
             (replicate 3 Quiet ++ KeyboardInterrupt
                :: replicate 2 Quiet ++ KeyboardInterrupt :: [Quiet]) None w_init).2
     = None.
Proof.
  split; [reflexivity|].
  destruct (shutdown_needs_second_interrupt (Some 4) (CreateFails io_error (Some 4096))
              3 2 [Quiet] w_init eq_refl) as (O & _ & _ & _ & _ & _ & _ & _ & _ & F & _).
  split; [rewrite O; reflexivity | exact F].
Defined.

End OrchestratorFacts.

(** ** Cache worker: what the passes leave in the array *)

Section CacheValues.

Import Cache.

Lemma touch_cells index st :
  0 <= index < size (data st) ->
  exists st',
    touch index st = Ok st'
    /\ size (data st') = size (data st)
    /\ touched st' = touched st ++ [index]
    /\ cells (data st')
       = <[index := bump (default 0%float (cells (data st) !! index))]> (cells (data st)).
Proof.
  intros H. unfold touch, getitem, setitem.
  rewrite (locate_in_bounds _ _ H). cbn.
  eexists. repeat split.
Qed.

Lemma for_each_cells s indices : forall st,
  Forall (fun i => 0 <= i * s < size (data st)) indices ->
  NoDup ((fun i => i * s) <$> indices) ->
  forall j,
    cells (data (for_each s indices st).1) !! j
    = if bool_decide (j ∈ (fun i => i * s) <$> indices)
      then Some (bump (default 0%float (cells (data st) !! j)))
      else cells (data st) !! j.
Proof.
  induction indices as [|i rest IH]; intros st Hall Hnd j;
    cbn [for_each fmap list_fmap].
  - rewrite bool_decide_eq_false_2; [reflexivity | apply not_elem_of_nil].
  - inversion Hall as [|? ? Hi Hrest]; subst.
    apply NoDup_cons in Hnd as [Hnotin Hnd].
    destruct (touch_cells (i * s) st Hi) as (st' & -> & Hsz & _ & Hcells).
    rewrite IH; [|rewrite Hsz; exact Hrest | exact Hnd].
    rewrite Hcells.
    destruct (decide (j = i * s)) as [->|Hne].
    + rewrite (bool_decide_eq_false_2 _ Hnotin), lookup_insert_eq.
      rewrite bool_decide_eq_true_2; [reflexivity | apply elem_of_cons; auto].
    + rewrite lookup_insert_ne by congruence.
      destruct (bool_decide (j ∈ _)) eqn:E.
      * apply bool_decide_eq_true in E.
        rewrite bool_decide_eq_true_2; [reflexivity | apply elem_of_cons; auto].
      * apply bool_decide_eq_false in E.
        rewrite bool_decide_eq_false_2; [reflexivity|].
        intros [?|?]%elem_of_cons; contradiction.
Qed.

(** With a stride that divides the length, the indices of a pass are the
    multiples of the stride that lie in the array. *)
Lemma strided_member a s j :
  0 < s -> a mod s = 0 -> 0 <= j < a ->
  (j ∈ (fun i => i * s) <$> range (a / s)) <-> j mod s = 0.
Proof.
  intros Hs Ha Hj. unfold range. rewrite list_elem_of_fmap. split.
  - intros (i & -> & _). apply Z.mod_mul. lia.
  - intros Hm. exists (j / s). split.
    + rewrite Z.mul_comm. apply Z.div_exact; [lia | exact Hm].
    + apply elem_of_seqZ. split; [apply Z.div_pos; lia|].
      apply Z.div_exact in Ha; [|lia]. apply Z.div_exact in Hm; [|lia].
      cbn. nia.
Qed.

Lemma pass_cells a s st :
  0 < s -> a mod s = 0 -> size (data st) = a ->
  forall j, 0 <= j < a ->
    getitem (data (pass a s st).1) j
    = Ok (if j mod s =? 0 then bump (default 0%float (cells (data st) !! j))
          else default 0%float (cells (data st) !! j)).
Proof.
  intros Hs Ha Hsz j Hj.
  destruct (pass_in_bounds a s st Hs Hsz) as (_ & _ & Hsz').
  unfold getitem. rewrite locate_in_bounds by (rewrite Hsz'; exact Hj).
  cbn [mbind result_bind]. f_equal.
  unfold pass, floordiv in *. rewrite (proj2 (Z.eqb_neq s 0)) in * by lia.
  rewrite for_each_cells.
  - pose proof (strided_member a s j Hs Ha Hj) as M.
    destruct (Z.eqb_spec (j mod s) 0) as [E|E].
    + rewrite bool_decide_eq_true_2 by (apply M; exact E). reflexivity.
    + rewrite bool_decide_eq_false_2 by (rewrite M; exact E). reflexivity.
  - unfold range. apply Forall_seqZ. intros i Hi. rewrite Hsz.
    apply strided_index_in_bounds; lia.
  - apply strided_indices. exact Hs.
Qed.

(** What one pass reads and writes: its indices are the multiples of the
    stride that lie in the array; each such cell is read and written back
    as [x * 1.0000000001 + 1.0]; every other cell reads as before. *)
Lemma pass_read_modify_write a s st :
  0 < s -> a mod s = 0 -> size (data st) = a ->
  let new := (fun i => i * s) <$> range (a / s) in
  (forall index, index ∈ new <-> 0 <= index < a /\ index mod s = 0)
  /\ (forall index, index ∈ new ->
        exists x, getitem (data st) index = Ok x
                  /\ getitem (data (pass a s st).1) index = Ok (x * factor + 1.0)%float)
  /\ (forall j, 0 <= j < a -> j ∉ new ->
        getitem (data (pass a s st).1) j = getitem (data st) j).
Proof.
  intros Hs Ha Hsz new.
  assert (Hin : forall index, index ∈ new -> 0 <= index < a).
  { intros index (i & -> & Hi%elem_of_seqZ)%list_elem_of_fmap.
    apply strided_index_in_bounds; lia. }
  assert (Hget : forall j, 0 <= j < a ->
                   getitem (data st) j = Ok (default 0%float (cells (data st) !! j))).
  { intros j Hj. unfold getitem.
    rewrite locate_in_bounds by (rewrite Hsz; exact Hj). reflexivity. }
  split; [|split].
  - intros index. split.
    + intros H. split; [exact (Hin index H)|].
      apply (strided_member a s index Hs Ha (Hin index H)), H.
    + intros [Hb Hm]. apply (strided_member a s index Hs Ha Hb), Hm.
  - intros index H. pose proof (Hin index H) as Hb.
    exists (default 0%float (cells (data st) !! index)).
    split; [exact (Hget index Hb)|].
    rewrite (pass_cells a s st Hs Ha Hsz index Hb).
    apply (strided_member a s index Hs Ha Hb) in H.
    rewrite (proj2 (Z.eqb_eq _ _) H). reflexivity.
  - intros j Hj H.
    rewrite (pass_cells a s st Hs Ha Hsz j Hj), (Hget j Hj).
    destruct (Z.eqb_spec (j mod s) 0) as [E|E]; [|reflexivity].
    exfalso. apply H, (strided_member a s j Hs Ha Hj), E.
Qed.

(** C7.  One pass over an array of 256,000,000 elements with stride 4096
    raises nothing and read-modify-writes, after what was touched before,
    exactly 62,500 = array_size // stride elements, at pairwise distinct
    indices that are all multiples of the stride: the indices are the
    multiples of 4096 below 256,000,000, each of these cells holds after
    the pass [x * 1.0000000001 + 1.0] for the [x] it held before, and every
    other cell of the array, whose length is kept, reads as before. *)
Theorem full_pass_touches :
  forall st : pass_state,
    size (data st) = array_size ->
    exists new : list Z,
      (pass array_size stride st).2 = None
      /\ touched (pass array_size stride st).1 = touched st ++ new
      /\ Z.of_nat (length new) = 62500
      /\ array_size / stride = 62500
      /\ Forall (fun index => (stride | index)) new
      /\ NoDup new
      /\ size (data (pass array_size stride st).1) = array_size
      /\ (forall index,
            index ∈ new <-> 0 <= index < array_size /\ index mod stride = 0)
      /\ (forall index,
            index ∈ new ->
            exists x : float,
              getitem (data st) index = Ok x
              /\ getitem (data (pass array_size stride st).1) index
                 = Ok (x * factor + 1.0)%float)
      /\ (forall j,
            0 <= j < array_size -> j ∉ new ->
            getitem (data (pass array_size stride st).1) j = getitem (data st) j).
Proof.
  intros st Hsz.
  assert (Hs : 0 < stride) by reflexivity.
  assert (Ha : array_size mod stride = 0) by reflexivity.
  exists ((fun i => i * stride) <$> range (array_size / stride)).
  destruct (pass_in_bounds array_size stride st Hs Hsz) as (E1 & E2 & E3).
  destruct (strided_indices array_size stride Hs) as (L & D & N).
  destruct (pass_read_modify_write array_size stride st Hs Ha Hsz) as (M & RW & K).
  split; [exact E1|]. split; [exact E2|].
  split; [rewrite L; reflexivity|]. split; [reflexivity|].
  split; [exact D|]. split; [exact N|]. split; [exact E3|].
  split; [exact M|]. split; [exact RW | exact K].
Qed.

Lemma full_pass_touches_witness :
  size (data (PassState (zeros array_size) [])) = array_size
  /\ (exists new : list Z,
        touched (pass array_size stride (PassState (zeros array_size) [])).1 = new
        /\ Z.of_nat (length new) = 62500)
  /\ getitem (data (pass array_size stride (PassState (zeros array_size) [])).1) 4096
     = Ok 1%float
  /\ getitem (data (pass array_size stride (PassState (zeros array_size) [])).1) 4097
     = Ok 0%float.
Proof.
  split; [reflexivity|].
  destruct (full_pass_touches (PassState (zeros array_size) []) eq_refl)
    as (new & _ & T & L & _ & _ & _ & _ & M & RW & K).
  split; [exists new; split; [exact T | exact L]|].
  split.
  - destruct (RW 4096) as (x & Ex & ->).
    + apply M. split; [split; [discriminate | reflexivity] | reflexivity].
    + injection Ex as <-. reflexivity.
  - rewrite (K 4097).
    + reflexivity.
    + split; [discriminate | reflexivity].
    + intros H%M. destruct H as [_ H]. discriminate H.
Defined.

Lemma loop_cells a s k : forall st w,
  0 < s -> a mod s = 0 -> size (data st) = a -> stop_event w = false ->
  exists st',
    loop a s (replicate k false) st w = (Looping, st', w)
    /\ size (data st') = a
    /\ length (touched st') = (length (touched st) + k * Z.to_nat (a / s))%nat
    /\ forall j, 0 <= j < a ->
         default 0%float (cells (data st') !! j)
         = if j mod s =? 0 then bumped k (default 0%float (cells (data st) !! j))
           else default 0%float (cells (data st) !! j).
Proof.
  induction k as [|k IH]; intros st w Hs Ha Hsz Hw.
  - exists st. cbn [replicate loop bumped]. split; [reflexivity|]. split; [exact Hsz|].
    split; [lia|]. intros j _. destruct (_ =? _); reflexivity.
  - cbn [replicate loop]. rewrite observe_false. unfold Token.is_set. rewrite Hw.
    destruct (pass_in_bounds a s st Hs Hsz) as (E1 & E2 & E3).
    pose proof (pass_cells a s st Hs Ha Hsz) as PC.
    destruct (pass a s st) as [st1 [e|]]; cbn [fst snd] in *; [discriminate E1|].
    destruct (IH st1 w Hs Ha E3 Hw) as (st' & EL & ES & ET & EC).
    exists st'. split; [exact EL|]. split; [exact ES|]. split.
    + rewrite ET, E2, length_app.
      destruct (strided_indices a s Hs) as (L & _). rewrite L. lia.
    + intros j Hj. rewrite (EC j Hj).
      specialize (PC j Hj). unfold getitem in PC.
      rewrite locate_in_bounds in PC by (rewrite E3; exact Hj).
      cbn [mbind result_bind] in PC. injection PC as PC. rewrite PC.
      destruct (j mod s =? 0); reflexivity.
Qed.

(** X14.  What the passes leave in the array.  After [k] undisturbed
    passes the cache worker is still running, has made 62,500 accesses per
    pass, and every element at a multiple of the stride holds the value
    x -> x * 1.0000000001 + 1.0 applied k times to 0.0, while every other
    element is still the 0.0 of [np.zeros]: a pass reaches every multiple
    of the stride in the array, and nothing else. *)
Theorem passes_bump_strided_cells :
  forall (k : nat) (w : world),
    stop_event w = false ->
    exists st w',
      cache_stress None (replicate k false) w = (StillRunning, Some st, w')
      /\ size (data st) = array_size
      /\ Z.of_nat (length (touched st)) = Z.of_nat k * 62500
      /\ forall j, 0 <= j < array_size ->
           getitem (data st) j
           = Ok (if j mod stride =? 0 then bumped k 0%float else 0%float).
Proof.
  intros k w Hs. unfold cache_stress.
  assert (Hst : 0 < stride) by reflexivity.
  assert (Hdiv : array_size mod stride = 0) by reflexivity.
  match goal with |- context [loop _ _ _ ?st0 ?w0] =>
    destruct (loop_cells array_size stride k st0 w0 Hst Hdiv eq_refl Hs)
      as (st' & -> & ES & ET & EC)
  end.
  eexists _, _. split; [reflexivity|]. split; [exact ES|]. split.
  - rewrite ET. cbn [touched length].
    replace (Z.to_nat (array_size / stride)) with (Z.to_nat 62500) by reflexivity. lia.
  - intros j Hj. unfold getitem.
    rewrite locate_in_bounds by (rewrite ES; exact Hj).
    cbn [mbind result_bind]. f_equal. rewrite (EC j Hj).
    cbn [zeros data cells]. rewrite lookup_empty. reflexivity.
Qed.

Lemma passes_bump_strided_cells_witness :
  stop_event w_init = false
  /\ exists st w',
       cache_stress None (replicate 2 false) w_init = (StillRunning, Some st, w')
       /\ getitem (data st) 8192 = Ok 0x1.0000000036f9cp+1%float
       /\ getitem (data st) 8193 = Ok 0%float.
Proof.
  split; [reflexivity|].
  destruct (passes_bump_strided_cells 2 w_init eq_refl) as (st & w' & E & _ & _ & C).
  exists st, w'. split; [exact E|]. split.
  - rewrite (C 8192) by (split; [discriminate | reflexivity]). reflexivity.
  - rewrite (C 8193) by (split; [discriminate | reflexivity]). reflexivity.
Defined.

End CacheValues.

(** ** Memory worker: what the chunks hold *)

Section RamContents.

Import Ram.

#[local] Set Warnings "-clear-no-such-hyp".

Lemma insert_contents n next c st :
  ring_at next c st -> contents_at n next st -> contents_at n next (insert n st).
Proof.
  intros (Hn & Hm & Hd) Hc. unfold insert. cbn [memory_chunks next_ref heap].
  set (r := next_ref st).
  assert (Hlen : length (memory_chunks st ++ [r]) = S (Nat.min c 4)).
  { rewrite length_app, Hm, last_four_length. cbn. lia. }
  set (h := <[r:=new_chunk n]> (heap st)).
  assert (Hh : forall r' c',
             (if (1 <? length (memory_chunks st ++ [r]))%nat
              then alter reverse r h else h) !! r' = Some c' ->
             c' = chunk_of n next r').
  { intros r' c'. unfold chunk_of. destruct (decide (r' = r)) as [->|Hne].
    - destruct (1 <? _)%nat eqn:E.
      + apply Nat.ltb_lt in E. subst h.
        rewrite lookup_alter_eq, lookup_insert_eq. cbn. intros [= <-].
        rewrite decide_False; [reflexivity | subst r; lia].
      + apply Nat.ltb_ge in E. subst h. rewrite lookup_insert_eq. intros [= <-].
        rewrite decide_True; [reflexivity | subst r; lia].
    - assert (E : (if (1 <? length (memory_chunks st ++ [r]))%nat
                   then alter reverse r h else h) !! r' = heap st !! r').
      { subst h. destruct (1 <? _)%nat;
          rewrite ?lookup_alter_ne, lookup_insert_ne by congruence; reflexivity. }
      rewrite E. apply Hc. }
  destruct (1 <? length (memory_chunks st ++ [r]))%nat;
    cbn [memory_chunks heap next_ref];
    (destruct (4 <? length (memory_chunks st ++ [r]))%nat;
     [unfold pop0; cbn [memory_chunks heap next_ref];
      destruct (memory_chunks st ++ [r]) as [|oldest rest];
      [exact Hh
      | intros r' c' H; cbn [heap] in H;
        apply lookup_delete_Some in H as [_ H]; apply Hh, H]
     | exact Hh]).
Qed.

Lemma loop_clean_contents n next script : forall c st w,
  Forall (fun it => clean it = true) script ->
  stop_event w = false -> ring_at next c st -> contents_at n next st ->
  exists st' w',
    loop n script st w = (Looping, st', w')
    /\ ring_at next (c + length script) st' /\ contents_at n next st'.
Proof.
  induction script as [|it rest IH]; intros c st w Hall Hs Hr Hc.
  - exists st, w. cbn [loop length]. rewrite Nat.add_0_r. auto.
  - inversion Hall as [|? ? Hcl Hrest]; subst.
    destruct (clean_inv_ram it Hcl) as [C A].
    cbn [loop]. rewrite C, A, observe_false. unfold Token.is_set. rewrite Hs.
    destruct (IH (S c) (insert n st) (sleep 0x1.999999999999ap-4 w) Hrest Hs
                 (insert_ring_at n next c st Hr) (insert_contents n next c st Hr Hc))
      as (st' & w' & E & R & K).
    exists st', w'. rewrite E. cbn [length].
    replace (c + S (length rest))%nat with (S c + length rest)%nat by lia. auto.
Qed.

(** X15.  What the ring holds.  While the memory worker runs
    undisturbed, every chunk of its ring is alive in the heap; the first
    chunk it ever allocated is the list 0..n-1 as built, every later one is
    that list reversed; so from the fifth insertion on, when the first
    chunk has been evicted, all four chunks of the ring are reversed. *)
Theorem ring_chunks_are_reversed :
  forall (n : Z) (next : nat) (script : list iter) (w : world),
    stop_event w = false ->
    Forall (fun it => clean it = true) script ->
    exists st w',
      ram_stress_with n next script w = (StillRunning, Some st, w')
      /\ (forall r, r ∈ memory_chunks st -> heap st !! r = Some (chunk_of n next r))
      /\ ((5 <= length script)%nat ->
          forall r, r ∈ memory_chunks st -> heap st !! r = Some (reverse (seqZ 0 n))).
Proof.
  intros n next script w Hs Hall. unfold ram_stress_with.
  assert (H0 : contents_at n next (init next)).
  { intros r c. cbn [init heap]. rewrite lookup_empty. discriminate. }
  destruct (loop_clean_contents n next script 0 (init next)
              (print "[RAM Thread]: Starting memory allocation and manipulation..." w)
              Hall Hs (ring_at_init next) H0) as (st & w' & E & (Hn & Hm & Hd) & Hc).
  rewrite E. exists st, w'. split; [reflexivity|].
  assert (Hlive : forall r, r ∈ memory_chunks st -> heap st !! r = Some (chunk_of n next r)).
  { intros r Hr.
    assert (Hin : r ∈ dom (heap st)) by (rewrite Hd; apply elem_of_list_to_set, Hr).
    apply elem_of_dom in Hin as [c Hc']. rewrite Hc'. f_equal. apply Hc, Hc'. }
  split; [exact Hlive|].
  intros H5 r Hr. transitivity (Some (chunk_of n next r)); [exact (Hlive r Hr)|].
  f_equal. cbn [Nat.add] in Hm. rewrite Hm, last_four_seq in Hr by lia.
  apply list_elem_of_In, in_seq in Hr.
  unfold chunk_of. rewrite decide_False by lia. reflexivity.
Qed.

Lemma ring_chunks_are_reversed_witness :
  stop_event w_init = false
  /\ Forall (fun it => clean it = true) six_insertions
  /\ exists st w',
       ram_stress_with 3 0 six_insertions w_init = (StillRunning, Some st, w')
       /\ forall r, r ∈ memory_chunks st -> heap st !! r = Some [2; 1; 0].
Proof.
  assert (Hall : Forall (fun it => clean it = true) six_insertions)
    by (repeat constructor).
  split; [reflexivity|]. split; [exact Hall|].
  destruct (ring_chunks_are_reversed 3 0 six_insertions w_init eq_refl Hall)
    as (st & w' & E & _ & R).
  exists st, w'. split; [exact E|]. apply R. cbn. lia.
Defined.

End RamContents.

(** ** Disk worker: the file in the steady state *)

Section DiskSteadyState.

Import Disk.

Lemma read_sizes_snoc t e :
  read_sizes (t ++ [e]) = read_sizes t ++ match e with EFileRead n => [n] | _ => [] end.
Proof. unfold read_sizes. rewrite omap_app. destruct e; reflexivity. Qed.

Lemma clean_step_reads n w :
  disk_file w = Some n ->
  read_sizes (trace (clean_step w)) = read_sizes (trace w) ++ [write_buffer_len]
  /\ count is_file_create (trace (clean_step w)) = count is_file_create (trace w).
Proof.
  intros H. unfold clean_step, write_in_place, read_back. rewrite H.
  cbn [fst disk_file emit set_file trace].
  rewrite !read_sizes_snoc, !count_snoc, app_nil_r. cbn [is_file_create].
  split; [|lia]. do 2 f_equal. lia.
Qed.

Lemma clean_run script : forall n w,
  Forall (fun it => clean it = true) script ->
  stop_event w = false -> disk_file w = Some n ->
  exists w',
    loop script w = (Looping, w')
    /\ disk_file w' = Some (match script with [] => n | _ => Z.max n write_buffer_len end)
    /\ read_sizes (trace w')
       = read_sizes (trace w) ++ replicate (length script) write_buffer_len
    /\ count is_file_create (trace w') = count is_file_create (trace w).
Proof.
  induction script as [|it rest IH]; intros n w Hall Hs Hf.
  - exists w. cbn [loop length replicate]. rewrite app_nil_r. auto.
  - inversion Hall as [|? ? Hc Hrest]; subst.
    rewrite (loop_clean_cons it rest n) by assumption.
    destruct (clean_step_reads n w Hf) as [R C].
    destruct (IH (Z.max n write_buffer_len) (clean_step w) Hrest) as (w' & EL & EF & ER & EC).
    { rewrite (clean_step_stop n) by exact Hf. exact Hs. }
    { apply clean_step_file, Hf. }
    exists w'. split; [exact EL|]. split; [|split].
    + rewrite EF. f_equal. destruct rest; [reflexivity | lia].
    + rewrite ER, R, <- app_assoc. reflexivity.
    + rewrite EC. exact C.
Qed.

(** X16.  The file is overwritten in place.  While the disk worker runs
    undisturbed on an existing file it creates nothing, every read returns
    a full buffer, and the size of the file is the larger of its size
    before and one buffer: a file of at least a buffer keeps its size
    whatever the number of iterations, a shorter one is grown to exactly
    one buffer by the first write. *)
Theorem file_overwritten_in_place :
  forall (cr : create_env) (script : list iter) (n : Z) (w : world),
    stop_event w = false -> disk_file w = Some n ->
    Forall (fun it => clean it = true) script ->
    let r := disk_stress cr script w in
    disk_file r.2 = Some (match script with [] => n | _ => Z.max n write_buffer_len end)
    /\ read_sizes (trace r.2)
       = read_sizes (trace w) ++ replicate (length script) write_buffer_len
    /\ count is_file_create (trace r.2) = count is_file_create (trace w).
Proof.
  intros cr script n w Hs Hf Hall r. subst r. unfold disk_stress.
  destruct (clean_run script n (print start_line w) Hall Hs Hf) as (w' & -> & EF & ER & EC).
  cbn [fst snd]. rewrite EF, ER, EC. unfold print.
  rewrite trace_emit, read_sizes_snoc, count_snoc, app_nil_r.
  cbn [is_file_create]. repeat split. lia.
Qed.

Lemma file_overwritten_in_place_witness :
  stop_event w_started = false
  /\ disk_file w_started = Some initial_file_len
  /\ Forall (fun it => clean it = true) [quiet; quiet; quiet]
  /\ disk_file (disk_stress CreateOk [quiet; quiet; quiet] w_started).2
     = Some initial_file_len.
Proof.
  assert (Hall : Forall (fun it => clean it = true) [quiet; quiet; quiet])
    by (repeat constructor).
  split; [reflexivity|]. split; [reflexivity|]. split; [exact Hall|].
  destruct (file_overwritten_in_place CreateOk [quiet; quiet; quiet] initial_file_len
              w_started eq_refl eq_refl Hall) as (F & _).
  exact F.
Defined.

Lemma disk_file_observe_stays c w : disk_file (observe c w) = disk_file w.
Proof. destruct c; reflexivity. Qed.

Lemma write_grows f c n w :
  disk_file w = Some n ->
  (exists n', disk_file (write_in_place f c w).1 = Some n' /\ n <= n')
  /\ count is_file_create (trace (write_in_place f c w).1) = count is_file_create (trace w)
  /\ forall e, (write_in_place f c w).2 = Some e ->
               exists g, f = Some g /\ e = wf_exn g.
Proof.
  intros H. unfold write_in_place. rewrite H.
  destruct f as [g|]; cbn [fst snd disk_file emit set_file trace].
  - split; [eexists; split; [reflexivity | lia]|]. split; [reflexivity|].
    intros e [= <-]. eauto.
  - split; [eexists; split; [reflexivity | lia]|].
    rewrite count_snoc. cbn [is_file_create]. split; [lia | discriminate].
Qed.

Lemma read_keeps f c n w :
  disk_file w = Some n ->
  disk_file (read_back f c w).1 = Some n
  /\ count is_file_create (trace (read_back f c w).1) = count is_file_create (trace w)
  /\ forall e, (read_back f c w).2 = Some e -> f = Some e.
Proof.
  intros H. unfold read_back. rewrite H.
  destruct f as [e|]; cbn [fst snd disk_file emit trace]; (split; [exact H|]).
  - split; [reflexivity|]. intros e' [= <-]. reflexivity.
  - rewrite count_snoc. cbn [is_file_create]. split; [lia | discriminate].
Qed.

Lemma loop_never_shrinks script : forall n w,
  Forall (fun it => file_stays it = true) script ->
  disk_file w = Some n ->
  (exists n', disk_file (loop script w).2 = Some n' /\ n <= n')
  /\ count is_file_create (trace (loop script w).2) = count is_file_create (trace w)
  /\ forall e, (loop script w).1 = Raised e -> is_file_not_found e = false.
Proof.
  induction script as [|it rest IH]; intros n w Hall Hf; cbn [loop].
  - split; [exists n; split; [exact Hf | lia]|]. split; [reflexivity | discriminate].
  - inversion Hall as [|? ? Hst Hrest]; subst.
    unfold file_stays in Hst. apply andb_prop in Hst as [Hw Hr].
    assert (Hf0 : disk_file (observe (cancel it) w) = Some n)
      by (rewrite disk_file_observe_stays; exact Hf).
    assert (Ht0 : trace (observe (cancel it) w) = trace w) by apply trace_observe.
    destruct (Token.is_set _); cbn [fst snd].
    { split; [exists n; split; [exact Hf0 | lia]|].
      split; [rewrite Ht0; reflexivity | discriminate]. }
    destruct (write_grows (write_err it) write_buffer_len n _ Hf0)
      as ((n1 & F1 & L1) & C1 & X1).
    rewrite Ht0 in C1.
    destruct (write_in_place _ _ _) as [w1 [e|]]; cbn [fst snd] in *.
    { split; [exists n1; auto|]. split; [exact C1|].
      intros e' [= <-]. destruct (X1 e eq_refl) as (g & Eg & ->).
      rewrite Eg in Hw. apply negb_true_iff, Hw. }
    destruct (read_keeps (read_err it) write_buffer_len n1 w1 F1) as (F2 & C2 & X2).
    destruct (read_back _ _ _) as [w2 [e|]]; cbn [fst snd] in *.
    { split; [exists n1; auto|]. split; [congruence|].
      intros e' [= <-]. rewrite (X2 e eq_refl) in Hr. apply negb_true_iff, Hr. }
    destruct (IH n1 w2 Hrest F2) as ((n' & F' & L') & C' & X').
    split; [exists n'; split; [exact F' | lia]|]. split; [congruence | exact X'].
Qed.

(** X17.  The disk worker never shrinks or removes an existing file: as
    long as no exception reports the file as vanished, then whatever else
    the writes and reads raise, and however the worker ends, a file that
    was there before is there afterwards, at least as large, and the
    worker has created nothing. *)
Theorem existing_file_never_shrinks :
  forall (cr : create_env) (script : list iter) (n : Z) (w : world),
    disk_file w = Some n ->
    Forall (fun it => file_stays it = true) script ->
    let r := disk_stress cr script w in
    (exists n', disk_file r.2 = Some n' /\ n <= n')
    /\ count is_file_create (trace r.2) = count is_file_create (trace w).
Proof.
  intros cr script n w Hf Hall r. subst r. unfold disk_stress.
  destruct (loop_never_shrinks script n (print start_line w) Hall Hf)
    as (S & C & X).
  rewrite count_print in C by reflexivity.
  destruct (loop script _) as [[| e |] w1]; cbn [fst snd] in *;
    try (split; [exact S | exact C]).
  specialize (X e eq_refl).
  destruct e; try discriminate X; cbn [snd];
    (destruct (Token.is_set _);
     [split; [exact S | exact C]
     | split; [exact S | rewrite count_print by reflexivity; exact C]]).
Qed.

Lemma existing_file_never_shrinks_witness :
  disk_file w_started = Some initial_file_len
  /\ Forall (fun it => file_stays it = true)
            [quiet; Iter false (Some (WriteFault io_error 4096)) None; quiet]
  /\ exists n',
       disk_file (disk_stress CreateOk
                    [quiet; Iter false (Some (WriteFault io_error 4096)) None; quiet]
                    w_started).2 = Some n'
       /\ initial_file_len <= n'.
Proof.
  assert (Hall : Forall (fun it => file_stays it = true)
                   [quiet; Iter false (Some (WriteFault io_error 4096)) None; quiet])
    by (repeat constructor).
  split; [reflexivity|]. split; [exact Hall|].
  destruct (existing_file_never_shrinks CreateOk
              [quiet; Iter false (Some (WriteFault io_error 4096)) None; quiet]
              initial_file_len w_started eq_refl Hall) as (S & _).
  exact S.
Defined.

End DiskSteadyState.
